(** * Fruity Gulp backend: recommendation engine and order pipeline

    A shallow embedding of the parts of the backend that carry logic:

    - the recommendation controller ([getRecommendations],
      [generateRecommendationReasons]), in [backend/routes/orders.js]
      after the order routes;
    - the order controller ([createOrder], [cancelOrder], [reorder]), in
      [backend/controllers/deliveryController.js] after the delivery and
      authentication controllers;
    - the helpers ([calculateDeliveryFee],
      [calculateEstimatedDeliveryTime], [generateRiderInfo]), in
      [unnamed/part_002];
    - the tables, after the schema in [unnamed/part_003];
    - further on: the rest of the helpers ([isValidCoordinate],
      [getStatusMessage], [sanitizeInput]), the order controller's reads
      ([getOrderById], [getOrderStatus]), the delivery controller
      ([getDeliveryFee], [checkDeliveryAvailability]), the recommendation
      controller's [getHealthBenefits], and the page arithmetic of
      [getUserOrders] and of the product controller ([unnamed/part_001]).

    Modelling conventions.

    - A JavaScript number is an exact rational ([Q]) where the code
      compares, rounds or passes it on: coordinates, distances, minutes,
      draws of [Math.random]; [Math.ceil] is [Qceiling].
    - Where the code multiplies and adds amounts of money, a number is
      the IEEE 754 double JavaScript has: the kernel's primitive [float],
      with its [*] and [+].  A [DECIMAL] column holds a decimal ([Q]);
      reading it gives the nearest double, and what it keeps of a double
      that is written to it is the store's affair ([to_decimal]).
    - A JavaScript string is a [string]; [toLowerCase] folds the ASCII
      letters and leaves every other byte alone.
    - A [Set] of strings is a [gset string]; the [orders] table is a
      [gmap] from order ids to rows.
    - [Math.random] reads the next draw of a random source that is threaded
      through the code as state.
    - The Supabase client is an external collaborator.  Each call either
      yields its rows or an [error] value; which calls error is part of the
      environment a request runs in.  A row is stored as it is sent,
      its amounts at the scale of their [DECIMAL] columns.
    - An exception thrown inside a [try] block is [None] in the option
      monad, turned into the handler's [catch] response. *)

From Stdlib Require Import ZArith QArith Qround Lia.
From Stdlib Require Import String Ascii List Permutation Sorted.
From Stdlib Require DecimalString.
From Stdlib Require PrimFloat FloatOps SpecFloat.
From stdpp Require Import gmap strings list.

Local Open Scope Z_scope.
Local Open Scope string_scope.

(** ** JavaScript primitives used by the controllers *)

Module JS.

(** [String.prototype.toLowerCase], on the ASCII range. *)
Definition lower_ascii (c : ascii) : ascii :=
  let n := nat_of_ascii c in
  if (Nat.leb 65 n && Nat.leb n 90)%bool then ascii_of_nat (n + 32) else c.

Fixpoint toLowerCase (s : string) : string :=
  match s with
  | EmptyString => EmptyString
  | String c s' => String (lower_ascii c) (toLowerCase s')
  end.

(** [String.prototype.includes]: [sub] occurs somewhere in [s]. *)
Fixpoint includes (s sub : string) : bool :=
  (String.prefix sub s ||
   match s with
   | EmptyString => false
   | String _ s' => includes s' sub
   end)%bool.

(** [Array.prototype.join]. *)
Fixpoint join (sep : string) (l : list string) : string :=
  match l with
  | [] => EmptyString
  | [x] => x
  | x :: l' => x +:+ sep +:+ join sep l'
  end.

(** A value read from a JSONB column or from an unvalidated request
    body.  Array elements are strings, as everywhere in the schema's
    seed data; [JObj] is a plain object (no [length], no methods). *)
Inductive jsonb : Type :=
| JNull
| JBool (b : bool)
| JNum (q : Q)
| JStr (s : string)
| JArr (l : list string)
| JObj.

(** Truthiness, as tested by [if (v)], [v && ...] and [v || ...]. *)
Definition truthy (v : jsonb) : bool :=
  match v with
  | JNull => false
  | JBool b => b
  | JNum q => negb (Qeq_bool q 0)
  | JStr s => negb (String.eqb s EmptyString)
  | JArr _ => true
  | JObj => true
  end.

Definition isArray (v : jsonb) : bool :=
  match v with JArr _ => true | _ => false end.

(** The elements visited by [if (v && Array.isArray(v)) v.forEach(...)]. *)
Definition array_elements (v : jsonb) : list string :=
  match v with JArr l => l | _ => [] end.

(** The elements visited by [if (v) v.forEach(...)]: a truthy value that
    is not an array has no [forEach], so the call throws. *)
Definition forEach_elements (v : jsonb) : option (list string) :=
  match v with
  | JArr l => Some l
  | _ => if truthy v then None else Some []
  end.

(** [Math.random]: a source of draws in [0, 1) and a read position. *)
Record prng : Type := { draws : nat -> Q; pos : nat }.

Definition Rand (A : Type) : Type := prng -> A * prng.

Definition ret {A} (a : A) : Rand A := fun g => (a, g).

Definition bind {A B} (m : Rand A) (k : A -> Rand B) : Rand B :=
  fun g => let (a, g') := m g in k a g'.

Definition Math_random : Rand Q :=
  fun g => (draws g (pos g), {| draws := draws g; pos := S (pos g) |}).

Declare Scope rand_scope.
Delimit Scope rand_scope with rand.
Notation "x <- m ;; k" := (bind m (fun x => k))
  (at level 100, m at next level, right associativity) : rand_scope.

(** [Array.prototype.sort(cmp)].  A negative [cmp x y] puts [x] before
    [y]; zero and positive results leave [x] behind [y], which makes the
    sort stable.  The comparator may read [Math.random]: each element is
    inserted, left to right, into the prefix sorted so far.  With a
    consistent comparator every stable algorithm returns this list; with
    an inconsistent one ECMAScript leaves the order to the engine, and
    only [Array_sort_perm] below is used about the result. *)
Section Sort.
Context {A : Type} (cmp : A -> A -> Rand Q).
Local Open Scope rand_scope.

Fixpoint sort_insert (x : A) (sorted : list A) : Rand (list A) :=
  match sorted with
  | [] => ret [x]
  | y :: rest =>
      c <- cmp x y ;;
      if Qlt_le_dec c 0 then ret (x :: y :: rest)
      else (r <- sort_insert x rest ;; ret (y :: r))
  end.

Fixpoint sort_from (sorted todo : list A) : Rand (list A) :=
  match todo with
  | [] => ret sorted
  | x :: todo' => s <- sort_insert x sorted ;; sort_from s todo'
  end.

Definition Array_sort (l : list A) : Rand (list A) := sort_from [] l.
End Sort.

(** [ToIntegerOrInfinity]: rounding toward zero. *)
Definition ToInteger (q : Q) : Z :=
  if Qlt_le_dec q 0 then Qceiling q else Qfloor q.

(** [a.slice(0, n)]. *)
Definition slice0 {A} (n : nat) (l : list A) : list A := firstn n l.

(** *** Numbers in arithmetic on amounts

    An IEEE 754 double, with the correctly rounded operations of the
    kernel's primitive floats. *)
Definition number : Set := PrimFloat.float.

(** [x * y] and [x + y]. *)
Definition num_mul (x y : number) : number := PrimFloat.mul x y.
Definition num_add (x y : number) : number := PrimFloat.add x y.

(** The number nearest to the quotient of two integers, ties to even: the
    division of the IEEE 754 specification, on mantissas of any size. *)
Definition nearest_number (negative : bool) (n d : positive) : number :=
  FloatOps.SF2Prim
    (SpecFloat.SFdiv FloatOps.prec FloatOps.emax
       (SpecFloat.S754_finite negative n 0) (SpecFloat.S754_finite false d 0)).

(** The number an integer is. *)
Definition Number_of_Z (z : Z) : number :=
  match z with
  | Z0 => PrimFloat.zero
  | Zpos n => nearest_number false n 1
  | Zneg n => nearest_number true n 1
  end.

(** The number a decimal becomes when JavaScript reads it, from the JSON
    text of a request or of a row: the double nearest to it. *)
Definition to_number (q : Q) : number :=
  match Qnum q with
  | Z0 => PrimFloat.zero
  | Zpos n => nearest_number false n (Qden q)
  | Zneg n => nearest_number true n (Qden q)
  end.

(** The exact value of a finite number (and zero otherwise). *)
Definition value_of (x : number) : Q :=
  match FloatOps.Prim2SF x with
  | SpecFloat.S754_finite s m e =>
      let a := if Z.leb 0 e then inject_Z (Zpos m * 2 ^ e)
               else Qmake (Zpos m) (Pos.pow 2 (Z.to_pos (- e))) in
      if s then Qopp a else a
  | _ => 0%Q
  end.

End JS.

(** ** [utils/helpers.js] *)

Module Helpers.
Import JS.

Definition baseFee : Z := 2000.
Definition perKmFee : Z := 2000.

(** [baseFee + (perKmFee * Math.ceil(distanceKm))]. *)
Definition calculateDeliveryFee (distanceKm : Q) : Z :=
  baseFee + perKmFee * Qceiling distanceKm.

(** A [Date] is its time value in milliseconds (UTC). *)
Definition Date : Type := Z.
Definition getMinutes (d : Date) : Z := (d / 60000) mod 60.
(** [setMinutes] truncates its argument to an integer before use. *)
Definition setMinutes (d : Date) (m : Q) : Date :=
  d + (ToInteger m - getMinutes d) * 60000.

Definition calculateEstimatedDeliveryTime (now : Date) (distanceKm : Q) : Date :=
  let totalMinutes := (30 + 10 * distanceKm)%Q in
  setMinutes now (inject_Z (getMinutes now) + totalMinutes)%Q.

Record rider : Type := { rider_name : string; rider_phone : string; rider_rating : Q }.

Definition riders : list rider :=
  [ {| rider_name := "Kato"; rider_phone := "+256700123456"; rider_rating := 48 # 10 |};
    {| rider_name := "Nakato"; rider_phone := "+256700123457"; rider_rating := 49 # 10 |};
    {| rider_name := "Ssemakula"; rider_phone := "+256700123458"; rider_rating := 47 # 10 |};
    {| rider_name := "Namukasa"; rider_phone := "+256700123459"; rider_rating := 46 # 10 |};
    {| rider_name := "Mukasa"; rider_phone := "+256700123460"; rider_rating := 48 # 10 |} ].

(** [riders[Math.floor(Math.random() * riders.length)]]; an index out of
    range reads [undefined]. *)
Definition generateRiderInfo : Rand (option rider) :=
  (r <- Math_random ;;
   ret (nth_error riders (Z.to_nat (Qfloor (r * inject_Z (Z.of_nat (length riders)))))))%rand.

End Helpers.


(** ** HTTP responses: [res.status(code).json({success, message, data})] *)

Module Http.

Record response (D : Type) : Type :=
  { status : nat; success : bool; message : string; data : option D }.
Arguments status {D} _.
Arguments success {D} _.
Arguments message {D} _.
Arguments data {D} _.

Definition failure {D} (code : nat) (msg : string) : response D :=
  {| status := code; success := false; message := msg; data := None |}.

Definition ok {D} (code : nat) (msg : string) (d : D) : response D :=
  {| status := code; success := true; message := msg; data := Some d |}.

(** A success response that carries no [data]. *)
Definition done_ {D} (code : nat) (msg : string) : response D :=
  {| status := code; success := true; message := msg; data := None |}.

End Http.

(** ** Rows of the tables ([database/schema.sql]) *)

Module Schema.
Import JS Helpers.

(** A row of [products]. *)
Record product : Type :=
  { product_id : string;
    product_name : string;
    price_per_litre : Q;
    ingredients : jsonb;
    health_benefits : jsonb;
    is_available : bool }.

(** A row of [symptoms_ingredients]. *)
Record symptom_mapping : Type :=
  { symptom : string;
    recommended_ingredients : jsonb;
    avoid_ingredients : jsonb;
    description : string }.

(** The values the [status] column's CHECK constraint allows. *)
Inductive order_status : Type :=
| pending | confirmed | preparing | out_for_delivery | delivered | cancelled.

(** [delivery_address]: [{street, city, district}]. *)
Record address : Type := { street : string; city : string; district : string }.

(** The row returned by the [get_nearest_outlet] database function. *)
Record nearest_outlet : Type :=
  { outlet_id : string;
    outlet_name : string;
    outlet_address : string;
    distance_km : Q }.

(** A row of [orders]; its [id] is the key it is stored under.
    [order_outlet_id] is the [outlet_id] column and [order_state] the
    [status] column. *)
Record order : Type :=
  { user_id : string;
    order_outlet_id : string;
    total_amount : Q;
    delivery_fee : Z;
    payment_method : string;
    delivery_address : option address;
    delivery_lat : Q;
    delivery_lng : Q;
    estimated_delivery_time : Date;
    rider_info : option rider;
    notes : option string;
    order_state : order_status;
    updated_at : option Date }.

(** A row of [order_items]. *)
Record order_item : Type :=
  { order_id : nat;
    item_product_id : string;
    quantity_litres : Q;
    unit_price : Q;
    subtotal : Q }.

End Schema.

(** ** [controllers/recommendationController.js] *)

Module Recommend.
Import JS Http Schema.

(** The tables the controller reads, and which of its two queries
    come back with an [error]. *)
Record catalog : Type :=
  { symptoms_ingredients : list symptom_mapping;
    products : list product;
    symptomError : bool;
    productsError : bool }.

(** [.from('symptoms_ingredients').select('*').in('symptom', values)]:
    the rows whose [symptom] column is one of [values]. *)
Definition select_symptom_in (table : list symptom_mapping) (values : list string)
  : list symptom_mapping :=
  List.filter (fun row => existsb (String.eqb (symptom row)) values) table.

(** [.from('products').select('*').eq('is_available', true)]. *)
Definition select_available (table : list product) : list product :=
  List.filter is_available table.

(** [l.forEach(x => set.add(x.toLowerCase()))]. *)
Definition add_lowered (l : list string) (set : gset string) : gset string :=
  fold_left (fun acc x => acc ∪ {[ toLowerCase x ]}) l set.

(** [set.has(x)]. *)
Definition has (set : gset string) (x : string) : bool := bool_decide (x ∈ set).

(** The [symptomMappings.forEach] loop filling [recommendedIngredients]
    and [avoidIngredients]. *)
Fixpoint collect (mappings : list symptom_mapping) (rec avoid : gset string)
  : option (gset string * gset string) :=
  match mappings with
  | [] => Some (rec, avoid)
  | mapping :: rest =>
      match forEach_elements (recommended_ingredients mapping) with
      | None => None
      | Some rs =>
          match forEach_elements (avoid_ingredients mapping) with
          | None => None
          | Some avs => collect rest (add_lowered rs rec) (add_lowered avs avoid)
          end
      end
  end.

(** The three locals of the scoring callback. *)
Record tally : Type :=
  { score : Z; matchedIngredients : list string; hasAvoidedIngredients : bool }.

Definition tally0 : tally :=
  {| score := 0; matchedIngredients := []; hasAvoidedIngredients := false |}.

(** Body of [product.ingredients.forEach]. *)
Definition score_ingredient (rec avoid : gset string) (t : tally) (ingredient : string)
  : tally :=
  let lowerIngredient := toLowerCase ingredient in
  let t1 :=
    if has avoid lowerIngredient
    then {| score := score t - 10;
            matchedIngredients := matchedIngredients t;
            hasAvoidedIngredients := true |}
    else t in
  if has rec lowerIngredient
  then {| score := score t1 + 5;
          matchedIngredients := (matchedIngredients t1 ++ [ingredient])%list;
          hasAvoidedIngredients := hasAvoidedIngredients t1 |}
  else t1.

(** The bidirectional substring test between a benefit and a symptom. *)
Definition overlaps (benefit symptom : string) : bool :=
  (includes (toLowerCase benefit) (toLowerCase symptom)
   || includes (toLowerCase symptom) (toLowerCase benefit))%bool.

(** Body of [product.health_benefits.forEach]: three points for every
    symptom the benefit overlaps. *)
Definition score_benefit (symptoms : list string) (s : Z) (benefit : string) : Z :=
  fold_left (fun s symptom => if overlaps benefit symptom then s + 3 else s) symptoms s.

Definition score_product (rec avoid : gset string) (symptoms : list string) (p : product)
  : tally :=
  let t := fold_left (score_ingredient rec avoid) (array_elements (ingredients p)) tally0 in
  {| score := fold_left (score_benefit symptoms) (array_elements (health_benefits p)) (score t);
     matchedIngredients := matchedIngredients t;
     hasAvoidedIngredients := hasAvoidedIngredients t |}.

(** [generateRecommendationReasons(matchedIngredients, healthBenefits,
    symptoms)].  [healthBenefits.length] is a number for arrays and
    strings only; a non-empty string has no [filter], and reading
    [length] of [null] throws. *)
Definition generateRecommendationReasons
  (matched : list string) (healthBenefits : jsonb) (symptoms : list string)
  : option (list string) :=
  let reasons :=
    if Nat.ltb 0 (length matched)
    then ["Contains beneficial ingredients: " +:+ join ", " matched]
    else [] in
  let finish (reasons : list string) :=
    if Nat.eqb (length reasons) 0 then ["Nutritious and refreshing choice"] else reasons in
  match healthBenefits with
  | JArr benefits =>
      let relevantBenefits :=
        List.filter (fun benefit => existsb (overlaps benefit) symptoms) benefits in
      if (Nat.ltb 0 (length benefits) && Nat.ltb 0 (length relevantBenefits))%bool
      then Some (finish (reasons ++ ["Supports: " +:+ join ", " relevantBenefits])%list)
      else Some (finish reasons)
  | JStr s => if Nat.ltb 0 (String.length s) then None else Some (finish reasons)
  | JNull => None
  | _ => Some (finish reasons)
  end.

(** An element of [scoredProducts]: the product row spread into an object
    with four more fields. *)
Record recommendation : Type :=
  { rec_product : product;
    recommendation_score : Z;
    matched_ingredients : list string;
    has_avoided_ingredients : bool;
    recommendation_reasons : list string }.

(** The callback of [products.map] that builds [scoredProducts]. *)
Definition scored (rec avoid : gset string) (symptoms : list string) (p : product)
  : option recommendation :=
  let t := score_product rec avoid symptoms p in
  let healthBenefits := if truthy (health_benefits p) then health_benefits p else JArr [] in
  match generateRecommendationReasons (matchedIngredients t) healthBenefits symptoms with
  | None => None
  | Some reasons =>
      Some {| rec_product := p;
              recommendation_score := score t;
              matched_ingredients := matchedIngredients t;
              has_avoided_ingredients := hasAvoidedIngredients t;
              recommendation_reasons := reasons |}
  end.

(** [products.map(cb)] where [cb] may throw. *)
Fixpoint map_throwing {A B} (cb : A -> option B) (l : list A) : option (list B) :=
  match l with
  | [] => Some []
  | x :: l' =>
      match cb x with
      | None => None
      | Some y => match map_throwing cb l' with None => None | Some ys => Some (y :: ys) end
      end
  end.

(** Predicate of the [filter] that precedes the ranking. *)
Definition qualifies (r : recommendation) : bool :=
  (negb (has_avoided_ingredients r) && Z.ltb 0 (recommendation_score r))%bool.

(** [(a, b) => b.recommendation_score - a.recommendation_score]. *)
Definition by_score_desc (a b : recommendation) : Rand Q :=
  ret (inject_Z (recommendation_score b - recommendation_score a)).

(** [() => Math.random() - 0.5]. *)
Definition coin_flip (a b : product) : Rand Q :=
  (r <- Math_random ;; ret (r - (1 # 2))%Q)%rand.

(** Predicate of the fallback's [filter]. *)
Definition no_avoided (avoid : gset string) (p : product) : bool :=
  if (truthy (ingredients p) && isArray (ingredients p))%bool
  then negb (existsb (fun ingredient => has avoid (toLowerCase ingredient))
               (array_elements (ingredients p)))
  else true.

(** The object built for each fallback product. *)
Definition general (p : product) : recommendation :=
  {| rec_product := p;
     recommendation_score := 1;
     matched_ingredients := [];
     has_avoided_ingredients := false;
     recommendation_reasons := ["General wellness support"; "No conflicting ingredients"] |}.

(** [req.body] after destructuring, with [allergies = []] by default. *)
Record request : Type := { symptoms : jsonb; allergies : list string }.

Record payload : Type :=
  { recommendations : list recommendation;
    symptoms_analyzed : list string;
    allergies_considered : list string;
    total_products_analyzed : nat;
    symptom_mappings_found : option nat }.

Definition internal_error : response payload := failure 500 "Internal server error".

Definition getRecommendations (db : catalog) (body : request) : Rand (response payload) :=
  match symptoms body with
  | JArr [] => ret (failure 400 "At least one symptom is required")
  | JArr symptoms =>
      if symptomError db then ret (failure 500 "Failed to fetch symptom mappings") else
      let symptomMappings :=
        select_symptom_in (symptoms_ingredients db) (map toLowerCase symptoms) in
      match collect symptomMappings ∅ ∅ with
      | None => ret internal_error
      | Some (recommendedIngredients, avoid0) =>
          let avoidIngredients := add_lowered (allergies body) avoid0 in
          if productsError db then ret (failure 500 "Failed to fetch products") else
          let products := select_available (products db) in
          match map_throwing (scored recommendedIngredients avoidIngredients symptoms) products with
          | None => ret internal_error
          | Some scoredProducts =>
              (ranked <- Array_sort by_score_desc (List.filter qualifies scoredProducts) ;;
               let filteredProducts := slice0 3 ranked in
               if Nat.eqb (length filteredProducts) 0 then
                 shuffled <- Array_sort coin_flip
                               (List.filter (no_avoided avoidIngredients) products) ;;
                 ret (ok 200 "No specific matches found. Here are some general recommendations."
                        {| recommendations := map general (slice0 3 shuffled);
                           symptoms_analyzed := symptoms;
                           allergies_considered := allergies body;
                           total_products_analyzed := length products;
                           symptom_mappings_found := None |})
               else
                 ret (ok 200 "Recommendations generated successfully"
                        {| recommendations := filteredProducts;
                           symptoms_analyzed := symptoms;
                           allergies_considered := allergies body;
                           total_products_analyzed := length products;
                           symptom_mappings_found := Some (length symptomMappings) |}))%rand
          end
      end
  | _ => ret (failure 400 "At least one symptom is required")
  end.

(** The list a caller sees: [data.recommendations] of a success response. *)
Definition surfaced (r : response payload) : list recommendation :=
  match data r with Some d => recommendations d | None => [] end.

End Recommend.


(** ** [controllers/orderController.js] *)

Module Orders.
Import JS Http Helpers Schema.

(** The two tables the controller writes. *)
Record store : Type :=
  { orders : gmap nat order;
    order_items : list order_item }.

(** Which store calls of a request come back with an [error].  The field
    names are the controller's, except [deleteError], the outcome of the
    rollback [delete] (which the controller does not read), and
    [enrichError], the [fetchError] of [createOrder]'s final re-fetch
    (kept apart from the [fetchError] of the first read in [cancelOrder]
    and [reorder]). *)
Record faults : Type :=
  { outletError : bool;
    productError : string -> bool;
    orderError : bool;
    itemsError : bool;
    deleteError : bool;
    enrichError : bool;
    fetchError : bool;
    updateError : bool }.

(** What a request reads but does not change.  [to_decimal s x] is what
    a [DECIMAL(p, s)] column keeps of the number [x] written to it: the
    client sends the number as JSON text and the store rounds that text
    to [s] decimals. *)
Record env : Type :=
  { catalog : list product;
    get_nearest_outlet : Q -> Q -> option nearest_outlet;
    now : Date;
    fault : faults;
    to_decimal : nat -> number -> Q }.

(** The store calls a request issues, oldest first. *)
Inductive call : Type :=
| RpcNearestOutlet
| SelectProduct (id : string)
| InsertOrder
| InsertItems (id : nat)
| DeleteOrder (id : nat)
| SelectOrder (id : nat)
| UpdateOrder (id : nat).

Record world : Type := { db : store; rng : prng; log : list call }.

Definition logged (c : call) (w : world) : world :=
  {| db := db w; rng := rng w; log := (log w ++ [c])%list |}.

Definition with_db (s : store) (w : world) : world :=
  {| db := s; rng := rng w; log := log w |}.

(** *** Store calls *)

(** [.from('products').select('*').eq('id', id).eq('is_available', true).single()]. *)
Definition select_product (e : env) (id : string) : option product :=
  if productError (fault e) id then None
  else List.find (fun p => (String.eqb (product_id p) id && is_available p)%bool) (catalog e).

(** [.from('orders').insert([row]).select().single()]: the store picks the id. *)
Definition insert_order (row : order) (s : store) : nat * store :=
  let id := fresh (dom (orders s)) in
  (id, {| orders := <[id := row]> (orders s); order_items := order_items s |}).

(** [.from('order_items').insert(rows)]. *)
Definition insert_items (rows : list order_item) (s : store) : store :=
  {| orders := orders s; order_items := (order_items s ++ rows)%list |}.

(** [.from('orders').delete().eq('id', id)]; [order_items.order_id] is
    declared [ON DELETE CASCADE]. *)
Definition delete_order (id : nat) (s : store) : store :=
  {| orders := delete id (orders s);
     order_items := List.filter (fun it => negb (Nat.eqb (order_id it) id)) (order_items s) |}.

(** [.from('orders').select(...).eq('id', id).eq('user_id', userId).single()]. *)
Definition select_order (s : store) (id : nat) (userId : string) : option order :=
  match orders s !! id with
  | Some o => if String.eqb (user_id o) userId then Some o else None
  | None => None
  end.

Definition items_of (s : store) (id : nat) : list order_item :=
  List.filter (fun it => Nat.eqb (order_id it) id) (order_items s).

(** *** [createOrder] *)

(** An element of [req.body.items]. *)
Record item_request : Type := { req_product_id : string; req_quantity_litres : Q }.

Record create_body : Type :=
  { items : list item_request;
    body_delivery_address : option address;
    body_delivery_lat : Q;
    body_delivery_lng : Q;
    body_payment_method : option string;
    body_notes : option string }.

(** An element of the local [orderItems], before [order_id] is known. *)
Record priced_item : Type :=
  { pi_product_id : string;
    pi_quantity_litres : number;
    pi_unit_price : number;
    pi_subtotal : number }.

(** [a || b] on an optional string: the empty string is falsy. *)
Definition or_string (a : option string) (b : string) : string :=
  match a with
  | Some s => if String.eqb s EmptyString then b else s
  | None => b
  end.

(** [a || b] on an optional number: zero is falsy. *)
Definition or_number (a : option Q) (b : Q) : Q :=
  match a with
  | Some q => if Qeq_bool q 0 then b else q
  | None => b
  end.

(** [a || b] on an optional object: every object is truthy. *)
Definition or_object {A} (a : option A) (b : option A) : option A :=
  match a with Some x => Some x | None => b end.

(** [notes || null]. *)
Definition or_null (a : option string) : option string :=
  match a with
  | Some s => if String.eqb s EmptyString then None else Some s
  | None => None
  end.

(** The [for (const item of items)] loop: [inr id] is the early return for
    a product that is missing or unavailable.  [product.price_per_litre]
    and [item.quantity_litres] are the numbers read from the row and from
    the request; [subtotal] is their product and [totalAmount] the running
    sum, both in doubles. *)
Fixpoint price_items (e : env) (items : list item_request)
  (totalAmount : number) (orderItems : list priced_item) (w : world)
  : (number * list priced_item + string) * world :=
  match items with
  | [] => (inl (totalAmount, orderItems), w)
  | item :: rest =>
      let w := logged (SelectProduct (req_product_id item)) w in
      match select_product e (req_product_id item) with
      | None => (inr (req_product_id item), w)
      | Some product =>
          let subtotal :=
            num_mul (to_number (price_per_litre product))
                    (to_number (req_quantity_litres item)) in
          price_items e rest (num_add totalAmount subtotal)
            (orderItems ++ [ {| pi_product_id := req_product_id item;
                                pi_quantity_litres := to_number (req_quantity_litres item);
                                pi_unit_price := to_number (price_per_litre product);
                                pi_subtotal := subtotal |} ])%list
            w
      end
  end.

(** The row of [order_items] that an element of
    [orderItems.map(item => ({...item, order_id: order.id}))] becomes:
    [quantity_litres] is a [DECIMAL(5,3)] column, [unit_price] and
    [subtotal] are [DECIMAL(10,2)]. *)
Definition with_order_id (e : env) (id : nat) (item : priced_item) : order_item :=
  {| order_id := id;
     item_product_id := pi_product_id item;
     quantity_litres := to_decimal e 3 (pi_quantity_litres item);
     unit_price := to_decimal e 2 (pi_unit_price item);
     subtotal := to_decimal e 2 (pi_subtotal item) |}.

(** [data] of the 201 response: [completeOrder || order].  [joined] holds
    the order's items with their products when the enrichment fetch
    succeeded, and is [None] for the bare header. *)
Record order_view : Type :=
  { view_id : nat;
    view_order : order;
    joined : option (list (order_item * option product)) }.

Definition join_product (e : env) (it : order_item) : order_item * option product :=
  (it, List.find (fun p => String.eqb (product_id p) (item_product_id it)) (catalog e)).

(** The row of [orders] that the object handed to
    [.from('orders').insert([...])] becomes, and that [.select().single()]
    returns; [totalAmount] is what the [DECIMAL(10,2)] column keeps. *)
Definition new_order (userId : string) (body : create_body) (nearestOutlet : nearest_outlet)
  (totalAmount : Q) (deliveryFee : Z) (estimatedDeliveryTime : Date) (rider : option rider)
  : order :=
  {| user_id := userId;
     order_outlet_id := outlet_id nearestOutlet;
     total_amount := totalAmount;
     delivery_fee := deliveryFee;
     payment_method := or_string (body_payment_method body) "cash";
     delivery_address := body_delivery_address body;
     delivery_lat := body_delivery_lat body;
     delivery_lng := body_delivery_lng body;
     estimated_delivery_time := estimatedDeliveryTime;
     rider_info := rider;
     notes := or_null (body_notes body);
     order_state := pending;
     updated_at := None |}.

Definition createOrder (e : env) (userId : string) (body : create_body) (w : world)
  : response order_view * world :=
  let w := logged RpcNearestOutlet w in
  match (if outletError (fault e) then None
         else get_nearest_outlet e (body_delivery_lat body) (body_delivery_lng body)) with
  | None => (failure 400 "No outlets available in your area", w)
  | Some nearestOutlet =>
      let deliveryFee := calculateDeliveryFee (distance_km nearestOutlet) in
      let estimatedDeliveryTime :=
        calculateEstimatedDeliveryTime (now e) (distance_km nearestOutlet) in
      match price_items e (items body) (Number_of_Z 0) [] w with
      | (inr missing, w) =>
          (failure 400 ("Product " +:+ missing +:+ " not found or unavailable"), w)
      | (inl (subtotals, orderItems), w) =>
          let totalAmount := num_add subtotals (Number_of_Z deliveryFee) in
          let (rider, g) := generateRiderInfo (rng w) in
          let row :=
            new_order userId body nearestOutlet (to_decimal e 2 totalAmount) deliveryFee
              estimatedDeliveryTime rider in
          let w := logged InsertOrder {| db := db w; rng := g; log := log w |} in
          if orderError (fault e) then (failure 500 "Failed to create order", w) else
          let (id, s) := insert_order row (db w) in
          let w := logged (InsertItems id) (with_db s w) in
          if itemsError (fault e) then
            let w := logged (DeleteOrder id) w in
            let w := if deleteError (fault e) then w else with_db (delete_order id (db w)) w in
            (failure 500 "Failed to create order items", w)
          else
            let w := with_db (insert_items (map (with_order_id e id) orderItems) (db w)) w in
            let w := logged (SelectOrder id) w in
            let view :=
              {| view_id := id;
                 view_order := row;
                 joined := if enrichError (fault e) then None
                           else Some (map (join_product e) (items_of (db w) id)) |} in
            (ok 201 "Order created successfully" view, w)
      end
  end.

(** *** [cancelOrder] *)

Definition cancellable (s : order_status) : bool :=
  match s with pending | confirmed => true | _ => false end.

Definition set_cancelled (t : Date) (o : order) : order :=
  {| user_id := user_id o;
     order_outlet_id := order_outlet_id o;
     total_amount := total_amount o;
     delivery_fee := delivery_fee o;
     payment_method := payment_method o;
     delivery_address := delivery_address o;
     delivery_lat := delivery_lat o;
     delivery_lng := delivery_lng o;
     estimated_delivery_time := estimated_delivery_time o;
     rider_info := rider_info o;
     notes := notes o;
     order_state := cancelled;
     updated_at := Some t |}.

(** [.from('orders').update({status: 'cancelled', updated_at}).eq('id', id)]. *)
Definition update_cancelled (t : Date) (id : nat) (s : store) : store :=
  {| orders := alter (set_cancelled t) id (orders s); order_items := order_items s |}.

Definition cancelOrder (e : env) (userId : string) (id : nat) (w : world)
  : response unit * world :=
  let w := logged (SelectOrder id) w in
  match (if fetchError (fault e) then None else select_order (db w) id userId) with
  | None => (failure 404 "Order not found", w)
  | Some order =>
      if negb (cancellable (order_state order))
      then (failure 400 "Order cannot be cancelled at this stage", w)
      else
        let w := logged (UpdateOrder id) w in
        if updateError (fault e) then (failure 500 "Failed to cancel order", w)
        else (done_ 200 "Order cancelled successfully",
              with_db (update_cancelled (now e) id (db w)) w)
  end.

(** *** [reorder] *)

(** [req.body] of the reorder route, which has no validation schema: a
    field may be absent ([None]). *)
Record reorder_body : Type :=
  { new_delivery_address : option address;
    new_delivery_lat : option Q;
    new_delivery_lng : option Q;
    new_payment_method : option string }.

Definition newOrderData (originalOrder : order) (original_items : list order_item)
  (body : reorder_body) : create_body :=
  {| items := map (fun item => {| req_product_id := item_product_id item;
                                  req_quantity_litres := quantity_litres item |})
                  original_items;
     body_delivery_address :=
       or_object (new_delivery_address body) (delivery_address originalOrder);
     body_delivery_lat := or_number (new_delivery_lat body) (delivery_lat originalOrder);
     body_delivery_lng := or_number (new_delivery_lng body) (delivery_lng originalOrder);
     body_payment_method :=
       Some (or_string (new_payment_method body) (payment_method originalOrder));
     body_notes := None |}.

Definition reorder (e : env) (userId : string) (id : nat) (body : reorder_body) (w : world)
  : response order_view * world :=
  let w := logged (SelectOrder id) w in
  match (if fetchError (fault e) then None else select_order (db w) id userId) with
  | None => (failure 404 "Original order not found", w)
  | Some originalOrder =>
      createOrder e userId (newOrderData originalOrder (items_of (db w) id) body) w
  end.

End Orders.


(** ** Sample data, after the seed rows of [database/schema.sql] *)

Module Scenario.
Import JS Http Helpers Schema.

Definition juice (id name : string) (price : Q) (ings benefits : jsonb) : product :=
  {| product_id := id;
     product_name := name;
     price_per_litre := price;
     ingredients := ings;
     health_benefits := benefits;
     is_available := true |}.

Definition mango_tango : product :=
  juice "p-mango" "Mango Tango" 15000
    (JArr ["mango"; "passion fruit"; "ginger"; "water"])
    (JArr ["vitamin_c"; "antioxidants"; "digestive_health"]).

Definition green_revitalizer : product :=
  juice "p-green" "Green Revitalizer" 18000
    (JArr ["spinach"; "cucumber"; "apple"; "lemon"; "water"])
    (JArr ["detox"; "iron"; "vitamin_k"; "hydration"]).

Definition citrus_sunrise : product :=
  juice "p-citrus" "Citrus Sunrise" 12000
    (JArr ["orange"; "grapefruit"; "lime"; "mint"; "water"])
    (JArr ["vitamin_c"; "immunity_boost"; "energy"]).

Definition berry_blast : product :=
  juice "p-berry" "Berry Blast" 20000
    (JArr ["strawberry"; "blueberry"; "raspberry"; "banana"; "coconut water"])
    (JArr ["antioxidants"; "heart_health"; "brain_function"]).

(** A product carrying an ingredient the [flu] mapping avoids. *)
Definition banana_lassi : product :=
  juice "p-lassi" "Banana Lassi" 14000
    (JArr ["banana"; "Dairy"])
    (JArr ["energy"]).

(** A product whose [ingredients] column holds a string, not an array. *)
Definition peanut_shake : product :=
  juice "p-shake" "Peanut Shake" 16000
    (JStr "peanut, milk, banana")
    (JArr ["flu relief"; "energy"]).

Definition flu : symptom_mapping :=
  {| symptom := "flu";
     recommended_ingredients := JArr ["orange"; "ginger"; "turmeric"; "lemon"; "carrot"];
     avoid_ingredients := JArr ["dairy"];
     description := "Vitamin C and anti-inflammatory ingredients help fight flu symptoms" |}.

(** The same mapping, stored with a capital letter. *)
Definition Flu_capitalised : symptom_mapping :=
  {| symptom := "Flu";
     recommended_ingredients := recommended_ingredients flu;
     avoid_ingredients := avoid_ingredients flu;
     description := description flu |}.

(** A random source whose every draw is [r]. *)
Definition constant_source (r : Q) : prng := {| draws := fun _ => r; pos := 0 |}.

Definition kampala_central : nearest_outlet :=
  {| outlet_id := "o-central";
     outlet_name := "Fruity Gulp Kampala Central";
     outlet_address := "Plot 123, Kampala Road, Kampala";
     distance_km := 3 |}.

Definition no_faults : Orders.faults :=
  {| Orders.outletError := false;
     Orders.productError := fun _ => false;
     Orders.orderError := false;
     Orders.itemsError := false;
     Orders.deleteError := false;
     Orders.enrichError := false;
     Orders.fetchError := false;
     Orders.updateError := false |}.

(** The line items insert fails and so does the rollback delete. *)
Definition items_and_delete_fail : Orders.faults :=
  {| Orders.outletError := false;
     Orders.productError := fun _ => false;
     Orders.orderError := false;
     Orders.itemsError := true;
     Orders.deleteError := true;
     Orders.enrichError := false;
     Orders.fetchError := false;
     Orders.updateError := false |}.

(** The line items insert fails; the rollback delete goes through. *)
Definition items_fail : Orders.faults :=
  {| Orders.outletError := false;
     Orders.productError := fun _ => false;
     Orders.orderError := false;
     Orders.itemsError := true;
     Orders.deleteError := false;
     Orders.enrichError := false;
     Orders.fetchError := false;
     Orders.updateError := false |}.

Definition update_fails : Orders.faults :=
  {| Orders.outletError := false;
     Orders.productError := fun _ => false;
     Orders.orderError := false;
     Orders.itemsError := false;
     Orders.deleteError := false;
     Orders.enrichError := false;
     Orders.fetchError := false;
     Orders.updateError := true |}.

(** A store that keeps, of a number, the decimal of the column's scale
    nearest to its value, ties away from zero.  Postgres rounds the
    number's JSON text that way; text and value round alike unless the
    text sits on a tie, which none of the amounts below does. *)
Definition nearest_decimal (scale : nat) (x : number) : Q :=
  let unit := 10 ^ Z.of_nat scale in
  let v := value_of x in
  let magnitude := if Qlt_le_dec v 0 then Qopp v else v in
  let n := Qfloor (magnitude * inject_Z unit + (1 # 2))%Q in
  let r := Qred (Qmake n (Z.to_pos unit)) in
  if Qlt_le_dec v 0 then Qopp r else r.

Definition shop (f : Orders.faults) : Orders.env :=
  {| Orders.catalog := [mango_tango; green_revitalizer; citrus_sunrise];
     Orders.get_nearest_outlet := fun _ _ => Some kampala_central;
     Orders.now := 1700000000000;
     Orders.fault := f;
     Orders.to_decimal := nearest_decimal |}.

Definition world0 : Orders.world :=
  {| Orders.db := {| Orders.orders := ∅; Orders.order_items := [] |};
     Orders.rng := constant_source (1 # 4);
     Orders.log := [] |}.

Definition kampala_road : address :=
  {| street := "Plot 7, Kampala Road"; city := "Kampala"; district := "Central" |}.

(** Half a litre of Mango Tango and a litre of Green Revitalizer. *)
Definition basket : Orders.create_body :=
  {| Orders.items :=
       [ {| Orders.req_product_id := "p-mango"; Orders.req_quantity_litres := 1 # 2 |};
         {| Orders.req_product_id := "p-green"; Orders.req_quantity_litres := 1 |} ];
     Orders.body_delivery_address := Some kampala_road;
     Orders.body_delivery_lat := 3476 # 10000;
     Orders.body_delivery_lng := 325825 # 10000;
     Orders.body_payment_method := Some "cash";
     Orders.body_notes := None |}.

(** User [u-1] orders [basket] and everything goes well. *)
Definition first_order : Http.response Orders.order_view * Orders.world :=
  Orders.createOrder (shop no_faults) "u-1" basket world0.

(** The world after that order. *)
Definition world1 : Orders.world := snd first_order.

(** The same order when the line items insert and the rollback delete
    both error. *)
Definition failed_rollback : Http.response Orders.order_view * Orders.world :=
  Orders.createOrder (shop items_and_delete_fail) "u-1" basket world0.

(** Cancelling the first order when the status update errors. *)
Definition refused_update : Http.response unit * Orders.world :=
  Orders.cancelOrder (shop update_fails) "u-1" 0 world1.

(** A reorder that moves the delivery to the equator. *)
Definition to_the_equator : Orders.reorder_body :=
  {| Orders.new_delivery_address := None;
     Orders.new_delivery_lat := Some 0%Q;
     Orders.new_delivery_lng := Some (325 # 10);
     Orders.new_payment_method := None |}.

(** The first order, reordered to the equator. *)
Definition equator_reorder : Http.response Orders.order_view * Orders.world :=
  Orders.reorder (shop no_faults) "u-1" 0 to_the_equator world1.

Definition shelf (ps : list product) (ms : list symptom_mapping) : Recommend.catalog :=
  {| Recommend.symptoms_ingredients := ms;
     Recommend.products := ps;
     Recommend.symptomError := false;
     Recommend.productsError := false |}.

Definition ask (symptoms allergies : list string) : Recommend.request :=
  {| Recommend.symptoms := JArr symptoms; Recommend.allergies := allergies |}.

(** A shelf with one product, which contains dairy, and a caller with
    the flu and no allergy. *)
Definition dairy_shelf : Recommend.catalog := shelf [banana_lassi] [flu].
Definition flu_no_allergy : Recommend.request := ask ["flu"] [].
Definition dairy_run : Http.response Recommend.payload :=
  fst (Recommend.getRecommendations dairy_shelf flu_no_allergy (constant_source (1 # 4))).

(** Two juices and a symptom nothing on the shelf addresses, run twice:
    with every draw of [Math.random] at 0.25, and at 0.75. *)
Definition two_juices : Recommend.catalog := shelf [mango_tango; green_revitalizer] [flu].
Definition insomnia : Recommend.request := ask ["insomnia"] [].
Definition run_low : Http.response Recommend.payload :=
  fst (Recommend.getRecommendations two_juices insomnia (constant_source (1 # 4))).
Definition run_high : Http.response Recommend.payload :=
  fst (Recommend.getRecommendations two_juices insomnia (constant_source (3 # 4))).

End Scenario.


(** ** The vocabulary of the specification *)

Module Spec.
Import JS Schema Recommend.

(** Two strings are equal up to letter case. *)
Definition same_word (a b : string) : bool :=
  String.eqb (toLowerCase a) (toLowerCase b).

(** [p] has no ingredient that [words] names, up to letter case. *)
Definition free_of (words : list string) (p : product) : bool :=
  forallb (fun ingredient => negb (existsb (same_word ingredient) words))
    (array_elements (ingredients p)).

(** The number of available products with no ingredient in [words]. *)
Definition count_free_of (words : list string) (table : list product) : nat :=
  length (List.filter (free_of words) (select_available table)).

(** The symptom mappings a request for [symptoms] selects when stored and
    requested symptoms are compared up to letter case. *)
Definition lookup_ignoring_case (table : list symptom_mapping) (symptoms : list string)
  : list symptom_mapping :=
  List.filter (fun row => existsb (same_word (symptom row)) symptoms) table.

(** The words a request avoids: the caller's allergies and the
    [avoid_ingredients] of the mappings its symptoms select. *)
Definition avoided_words (db : catalog) (symptoms allergies : list string) : list string :=
  (allergies ++
   flat_map (fun row => array_elements (avoid_ingredients row))
     (select_symptom_in (symptoms_ingredients db) (map toLowerCase symptoms)))%list.

(** The number of (benefit, symptom) pairs that overlap textually. *)
Definition overlap_count (symptoms : list string) (benefits : list string) : nat :=
  list_sum (map (fun benefit => length (List.filter (overlaps benefit) symptoms)) benefits).

(** The scored pass: the products that qualify for the ranking, when the
    request gets as far as scoring. *)
Definition scored_pass (db : catalog) (symptoms allergies : list string)
  : option (list recommendation) :=
  match collect (select_symptom_in (symptoms_ingredients db) (map toLowerCase symptoms))
          ∅ ∅ with
  | Some (rec, avoid0) =>
      match map_throwing (scored rec (add_lowered allergies avoid0) symptoms)
              (select_available (products db)) with
      | Some scoredProducts => Some (List.filter qualifies scoredProducts)
      | None => None
      end
  | None => None
  end.

(** The message of the fallback path. *)
Definition fallback_message : string :=
  "No specific matches found. Here are some general recommendations.".

(** Sum of the [subtotal] column of some line items. *)
Definition sum_subtotals (rows : list order_item) : Q :=
  fold_left Qplus (map subtotal rows) 0%Q.

(** The amount the pipeline computes for [quantity] litres of [p]: the
    product, in doubles, of the price and the quantity as JavaScript
    reads them. *)
Definition line_amount (p : product) (quantity : Q) : number :=
  num_mul (to_number (price_per_litre p)) (to_number quantity).

(** The sum, in doubles and from the left, that the pipeline accumulates
    over the amounts of its lines, starting from zero. *)
Definition running_total (amounts : list number) : number :=
  fold_left num_add amounts (Number_of_Z 0).

(** [line] is the element of the local [orderItems] for the request
    [req], priced at what the catalog holds when the order is created. *)
Definition priced (e : Orders.env) (req : Orders.item_request) (line : Orders.priced_item)
  : Prop :=
  exists p,
    Orders.select_product e (Orders.req_product_id req) = Some p
    /\ Orders.pi_product_id line = Orders.req_product_id req
    /\ Orders.pi_quantity_litres line = to_number (Orders.req_quantity_litres req)
    /\ Orders.pi_unit_price line = to_number (price_per_litre p)
    /\ Orders.pi_subtotal line = line_amount p (Orders.req_quantity_litres req).

(** Line item [it] is what the store keeps of the request [req] priced at
    what the catalog holds when the order is created. *)
Definition priced_from (e : Orders.env) (req : Orders.item_request) (it : order_item)
  : Prop :=
  exists p,
    Orders.select_product e (Orders.req_product_id req) = Some p
    /\ item_product_id it = Orders.req_product_id req
    /\ quantity_litres it
       = Orders.to_decimal e 3 (to_number (Orders.req_quantity_litres req))
    /\ unit_price it = Orders.to_decimal e 2 (to_number (price_per_litre p))
    /\ subtotal it
       = Orders.to_decimal e 2 (line_amount p (Orders.req_quantity_litres req)).

(** The foreign key of [order_items]: every line item belongs to a stored
    order. *)
Definition referential (s : Orders.store) : Prop :=
  forall it, In it (Orders.order_items s) -> is_Some (Orders.orders s !! order_id it).

End Spec.


(** ** More of [utils/helpers.js] *)

Module HelpersMore.
Import JS Helpers Schema.

(** [lat >= -90 && lat <= 90 && lng >= -180 && lng <= 180]. *)
Definition isValidCoordinate (lat lng : Q) : bool :=
  (Qle_bool (-90) lat && Qle_bool lat 90 && Qle_bool (-180) lng && Qle_bool lng 180)%bool.

(** [messages[status] || 'Order status unknown'], on the six values the
    [status] column can hold. *)
Definition getStatusMessage (s : order_status) : string :=
  match s with
  | pending => "Order received and being processed"
  | confirmed => "Order confirmed and being prepared"
  | preparing => "Your fresh juices are being prepared"
  | out_for_delivery => "Order is on the way to you"
  | delivered => "Order has been delivered successfully"
  | cancelled => "Order has been cancelled"
  end.

(** White space, as [String.prototype.trim] sees it on the ASCII range:
    tab, line feed, vertical tab, form feed, carriage return, space. *)
Definition is_space (c : ascii) : bool :=
  let n := nat_of_ascii c in
  (Nat.leb 9 n && Nat.leb n 13 || Nat.eqb n 32)%bool.

Fixpoint trim_start (l : list ascii) : list ascii :=
  match l with
  | [] => []
  | c :: l' => if is_space c then trim_start l' else l
  end.

(** [s.trim()]. *)
Definition trim (s : string) : string :=
  string_of_list_ascii
    (rev (trim_start (rev (trim_start (list_ascii_of_string s))))).

Definition is_angle (c : ascii) : bool :=
  (Ascii.eqb c "<"%char || Ascii.eqb c ">"%char)%bool.

(** [s.replace(/[<>]/g, '')]. *)
Fixpoint strip_angles (s : string) : string :=
  match s with
  | EmptyString => EmptyString
  | String c s' => if is_angle c then strip_angles s' else String c (strip_angles s')
  end.

(** [sanitizeInput], on a string argument. *)
Definition sanitizeInput (input : string) : string := strip_angles (trim input).

End HelpersMore.

(** ** The order controller's reads: [getOrderById], [getOrderStatus] *)

Module Tracking.
Import JS Http Helpers Schema Orders HelpersMore.

(** A non-negative integer in a template literal. *)
Definition Number_toString (z : Z) : string :=
  DecimalString.NilZero.string_of_int (Z.to_int z).

(** [statusProgress[order.status] || 0]. *)
Definition statusProgress (s : order_status) : Z :=
  match s with
  | pending => 10
  | confirmed => 25
  | preparing => 50
  | out_for_delivery => 75
  | delivered => 100
  | cancelled => 0
  end.

(** [Math.max(0, Math.floor((estimatedTime - now) / (1000 * 60)))]. *)
Definition diffMinutes (estimatedTime now : Date) : Z :=
  Z.max 0 ((estimatedTime - now) / (1000 * 60)).

(** The local [timeRemaining]; [None] is [null]. *)
Definition timeRemaining (s : order_status) (estimated : option Date) (now : Date)
  : option string :=
  match estimated, s with
  | None, _ => None
  | Some _, delivered => None
  | Some _, cancelled => None
  | Some estimatedTime, _ =>
      Some (Number_toString (diffMinutes estimatedTime now) +:+ " minutes")
  end.

(** [data] of the tracking response.  The joined [outlets] row and
    [created_at] are not part of the [orders] rows of this model. *)
Record tracking : Type :=
  { tracked_id : nat;
    tracked_status : order_status;
    status_message : string;
    progress_percentage : Z;
    tracked_estimated_delivery_time : Date;
    time_remaining : option string;
    tracked_rider_info : option rider }.

(** A response sent with [res.json] alone has status 200 and no message. *)
Definition json {D} (d : D) : response D := ok 200 EmptyString d.

Definition getOrderStatus (e : env) (userId : string) (id : nat) (w : world)
  : response tracking * world :=
  let w := logged (SelectOrder id) w in
  match (if fetchError (fault e) then None else select_order (db w) id userId) with
  | None => (failure 404 "Order not found", w)
  | Some order =>
      (json {| tracked_id := id;
               tracked_status := order_state order;
               status_message := getStatusMessage (order_state order);
               progress_percentage := statusProgress (order_state order);
               tracked_estimated_delivery_time := estimated_delivery_time order;
               time_remaining :=
                 timeRemaining (order_state order)
                   (Some (estimated_delivery_time order)) (now e);
               tracked_rider_info := rider_info order |}, w)
  end.

Definition getOrderById (e : env) (userId : string) (id : nat) (w : world)
  : response order_view * world :=
  let w := logged (SelectOrder id) w in
  match (if fetchError (fault e) then None else select_order (db w) id userId) with
  | None => (failure 404 "Order not found", w)
  | Some order =>
      (json {| view_id := id;
               view_order := order;
               joined := Some (map (join_product e) (items_of (db w) id)) |}, w)
  end.

End Tracking.

(** ** The delivery controller: [getDeliveryFee], [checkDeliveryAvailability] *)

Module Delivery.
Import JS Http Helpers Schema Orders HelpersMore.

Definition two_digits (n : Z) : string :=
  if Z.ltb n 10 then "0" +:+ Tracking.Number_toString n else Tracking.Number_toString n.

(** [x.toFixed(2)], for magnitudes that print in positional notation: the
    nearest multiple of a hundredth, the larger one on a tie. *)
Definition toFixed2 (x : Q) : string :=
  let negative := if Qlt_le_dec x 0 then true else false in
  let a := if negative then (- x)%Q else x in
  let n := Qfloor (a * 100 + (1 # 2))%Q in
  ((if negative then "-" else EmptyString)
   +:+ Tracking.Number_toString (n / 100) +:+ "." +:+ two_digits (n mod 100)).

Record outlet_summary : Type :=
  { summary_id : string;
    summary_name : string;
    summary_address : string;
    summary_distance_km : option string }.

Record fee_quote : Type :=
  { quoted_outlet : outlet_summary;
    quoted_fee : Z;
    estimated_delivery_minutes : Z;
    quote_available : bool }.

Definition maxDeliveryDistance : Z := 20.

Definition getDeliveryFee (e : env) (lat lng : Q) : response fee_quote :=
  if negb (isValidCoordinate lat lng) then failure 400 "Invalid coordinates provided" else
  if outletError (fault e) then failure 500 "Failed to find nearest outlet" else
  match get_nearest_outlet e lat lng with
  | None => failure 404 "No outlets available in your area"
  | Some nearestOutlet =>
      let deliveryFee := calculateDeliveryFee (distance_km nearestOutlet) in
      let estimatedMinutes := (30 + 10 * distance_km nearestOutlet)%Q in
      Tracking.json
        {| quoted_outlet :=
             {| summary_id := outlet_id nearestOutlet;
                summary_name := outlet_name nearestOutlet;
                summary_address := outlet_address nearestOutlet;
                summary_distance_km := Some (toFixed2 (distance_km nearestOutlet)) |};
           quoted_fee := deliveryFee;
           estimated_delivery_minutes := Qceiling estimatedMinutes;
           quote_available := Qle_bool (distance_km nearestOutlet) 20 |}
  end.

(** [data] of the availability response; [None] in [delivery_available]
    is the [null] that [nearestOutlet && ...] yields without an outlet. *)
Record availability : Type :=
  { delivery_available : option bool;
    available_distance_km : option string;
    max_delivery_distance : Z;
    available_outlet : option outlet_summary;
    availability_message : string }.

Definition checkDeliveryAvailability (e : env) (lat lng : Q) : response availability :=
  if negb (isValidCoordinate lat lng) then failure 400 "Invalid coordinates provided" else
  if outletError (fault e) then failure 500 "Failed to check delivery availability" else
  let nearestOutlet := get_nearest_outlet e lat lng in
  let isAvailable :=
    option_map (fun o => Qle_bool (distance_km o) (inject_Z maxDeliveryDistance))
      nearestOutlet in
  Tracking.json
    {| delivery_available := isAvailable;
       available_distance_km := option_map (fun o => toFixed2 (distance_km o)) nearestOutlet;
       max_delivery_distance := maxDeliveryDistance;
       available_outlet :=
         option_map (fun o => {| summary_id := outlet_id o;
                                 summary_name := outlet_name o;
                                 summary_address := outlet_address o;
                                 summary_distance_km := None |}) nearestOutlet;
       availability_message :=
         match isAvailable with
         | Some true => "Delivery available in your area"
         | Some false => "Location is outside our delivery area"
         | None => "No outlets found in your area"
         end |}.

End Delivery.

(** ** Pagination, as [getUserOrders] and the product controller do it *)

Module Paging.
Import JS.

(** [from = (page - 1) * limit] and [to = from + limit - 1]. *)
Definition range_from (page limit : Z) : Z := (page - 1) * limit.
Definition range_to (page limit : Z) : Z := range_from page limit + limit - 1.

(** [Math.ceil(count / limit)]. *)
Definition totalPages (count limit : Z) : Z :=
  Qceiling (inject_Z count / inject_Z limit).

(** [query.range(from, to)] on the ordered rows a query denotes: the rows
    at offsets [from] to [to], both included, for a [from] within the
    result set (what the store answers past its end is not modelled). *)
Definition range {A} (from to : Z) (rows : list A) : list A :=
  firstn (Z.to_nat (to - from + 1)) (skipn (Z.to_nat from) rows).

(** The rows of page [page]. *)
Definition page_rows {A} (page limit : Z) (rows : list A) : list A :=
  range (range_from page limit) (range_to page limit) rows.

(** [hasNextPage] and [hasPrevPage] of [getAllProducts]. *)
Definition hasNextPage (page count limit : Z) : bool := Z.ltb page (totalPages count limit).
Definition hasPrevPage (page : Z) : bool := Z.ltb 1 page.

End Paging.

(** ** The recommendation controller's [getHealthBenefits] *)

Module Benefits.
Import JS Http Schema Recommend.

(** [set.add(x)] on a [Set] kept in insertion order. *)
Definition set_add (set : list string) (x : string) : list string :=
  if existsb (String.eqb x) set then set else (set ++ [x])%list.

(** The [products.forEach] loop filling [allBenefits]. *)
Definition collect_benefits (products : list product) : list string :=
  fold_left (fun set p => fold_left set_add (array_elements (health_benefits p)) set)
    products [].

(** The comparator [sort()] uses without an argument, on strings. *)
Definition default_compare (a b : string) : Rand Q :=
  ret (match String.compare a b with
       | Lt => (-1)%Q
       | Eq => 0%Q
       | Gt => 1%Q
       end).

Definition getHealthBenefits (db : catalog) : response (list string) :=
  if productsError db then failure 500 "Failed to fetch health benefits" else
  let products := select_available (products db) in
  let allBenefits := collect_benefits products in
  let uniqueBenefits :=
    fst (Array_sort default_compare allBenefits {| draws := fun _ => 0%Q; pos := 0 |}) in
  ok 200 EmptyString uniqueBenefits.

End Benefits.

(** ** More sample data *)

Module Cases.
Import JS Http Helpers Schema Scenario.

(** The first order, cancelled by its owner. *)
Definition world_cancelled : Orders.world :=
  snd (Orders.cancelOrder (shop no_faults) "u-1" 0 world1).

(** The shop after Green Revitalizer was taken off the menu. *)
Definition shop_without_green : Orders.env :=
  {| Orders.catalog :=
       [ mango_tango;
         {| product_id := product_id green_revitalizer;
            product_name := product_name green_revitalizer;
            price_per_litre := price_per_litre green_revitalizer;
            ingredients := ingredients green_revitalizer;
            health_benefits := health_benefits green_revitalizer;
            is_available := false |};
         citrus_sunrise ];
     Orders.get_nearest_outlet := fun _ _ => Some kampala_central;
     Orders.now := 1700000000000;
     Orders.fault := no_faults;
     Orders.to_decimal := nearest_decimal |}.

(** The shop after Mango Tango went up to 16000 a litre. *)
Definition shop_dearer_mango : Orders.env :=
  {| Orders.catalog :=
       [ juice "p-mango" "Mango Tango" 16000 (ingredients mango_tango)
           (health_benefits mango_tango);
         green_revitalizer; citrus_sunrise ];
     Orders.get_nearest_outlet := fun _ _ => Some kampala_central;
     Orders.now := 1700000000000;
     Orders.fault := no_faults;
     Orders.to_decimal := nearest_decimal |}.

Definition enrich_fails : Orders.faults :=
  {| Orders.outletError := false;
     Orders.productError := fun _ => false;
     Orders.orderError := false;
     Orders.itemsError := false;
     Orders.deleteError := false;
     Orders.enrichError := true;
     Orders.fetchError := false;
     Orders.updateError := false |}.

(** A shop whose outlet lookup finds nothing. *)
Definition shop_no_outlet : Orders.env :=
  {| Orders.catalog := [mango_tango; green_revitalizer; citrus_sunrise];
     Orders.get_nearest_outlet := fun _ _ => None;
     Orders.now := 1700000000000;
     Orders.fault := no_faults;
     Orders.to_decimal := nearest_decimal |}.

(** A juice at 19999.99 a litre. *)
Definition premium_press : product :=
  juice "p-premium" "Premium Press" (1999999 # 100)
    (JArr ["pomegranate"; "beetroot"; "ginger"])
    (JArr ["antioxidants"; "heart_health"]).

Definition shop_premium : Orders.env :=
  {| Orders.catalog := [mango_tango; green_revitalizer; citrus_sunrise; premium_press];
     Orders.get_nearest_outlet := fun _ _ => Some kampala_central;
     Orders.now := 1700000000000;
     Orders.fault := no_faults;
     Orders.to_decimal := nearest_decimal |}.

(** Two lines of 0.4 litres of Premium Press. *)
Definition two_small_lines : Orders.create_body :=
  {| Orders.items :=
       [ {| Orders.req_product_id := "p-premium"; Orders.req_quantity_litres := 4 # 10 |};
         {| Orders.req_product_id := "p-premium"; Orders.req_quantity_litres := 4 # 10 |} ];
     Orders.body_delivery_address := Some kampala_road;
     Orders.body_delivery_lat := 3476 # 10000;
     Orders.body_delivery_lng := 325825 # 10000;
     Orders.body_payment_method := Some "cash";
     Orders.body_notes := None |}.

Definition premium_order : Http.response Orders.order_view * Orders.world :=
  Orders.createOrder shop_premium "u-1" two_small_lines world0.

Definition plain_reorder : Orders.reorder_body :=
  {| Orders.new_delivery_address := None;
     Orders.new_delivery_lat := None;
     Orders.new_delivery_lng := None;
     Orders.new_payment_method := None |}.

End Cases.


(** * Properties *)

(** ** The JavaScript primitives *)

Module JSFacts.
Import JS.

Lemma lower_ascii_idem (c : ascii) : lower_ascii (lower_ascii c) = lower_ascii c.
Proof. destruct c as [[] [] [] [] [] [] [] []]; reflexivity. Qed.

Lemma toLowerCase_idem (s : string) : toLowerCase (toLowerCase s) = toLowerCase s.
Proof.
  induction s as [| c s IH]; simpl; [reflexivity |].
  now rewrite lower_ascii_idem, IH.
Qed.

Section SortFacts.
Context {A : Type} (cmp : A -> A -> Rand Q).

Lemma sort_insert_perm (x : A) (l : list A) (g : prng) :
  Permutation (fst (sort_insert cmp x l g)) (x :: l).
Proof.
  revert g. induction l as [| y l IH]; intros g; simpl.
  - reflexivity.
  - unfold bind. destruct (cmp x y g) as [c g1].
    destruct (Qlt_le_dec c 0); simpl.
    + reflexivity.
    + specialize (IH g1). destruct (sort_insert cmp x l g1) as [r g2]. simpl in *.
      rewrite IH. apply perm_swap.
Qed.

Lemma sort_from_perm (todo sorted : list A) (g : prng) :
  Permutation (fst (sort_from cmp sorted todo g)) (sorted ++ todo).
Proof.
  revert sorted g. induction todo as [| x todo IH]; intros sorted g; simpl.
  - now rewrite app_nil_r.
  - unfold bind. pose proof (sort_insert_perm x sorted g) as Hins.
    destruct (sort_insert cmp x sorted g) as [s g1]. simpl in Hins.
    rewrite IH, Hins. simpl. apply Permutation_middle.
Qed.

(** Whatever the comparator answers, sorting only rearranges. *)
Lemma Array_sort_perm (l : list A) (g : prng) :
  Permutation (fst (Array_sort cmp l g)) l.
Proof. unfold Array_sort. now rewrite sort_from_perm. Qed.

(** A comparator that does not read [Math.random]. *)
Hypothesis cmp_pure : forall a b, exists c, forall g, cmp a b g = (c, g).

Lemma sort_insert_pure (x : A) (l : list A) :
  exists r, forall g, sort_insert cmp x l g = (r, g).
Proof.
  induction l as [| y l [r IH]]; simpl.
  - now exists [x].
  - destruct (cmp_pure x y) as [c Hc]. unfold bind.
    destruct (Qlt_le_dec c 0) as [Hlt | Hge].
    + exists (x :: y :: l). intros g. rewrite Hc.
      destruct (Qlt_le_dec c 0); [reflexivity | exfalso; eapply Qlt_not_le; eauto].
    + exists (y :: r). intros g. rewrite Hc.
      destruct (Qlt_le_dec c 0); [exfalso; eapply Qlt_not_le; eauto |].
      now rewrite IH.
Qed.

Lemma sort_from_pure (todo sorted : list A) :
  exists r, forall g, sort_from cmp sorted todo g = (r, g).
Proof.
  revert sorted. induction todo as [| x todo IH]; intros sorted; simpl.
  - now exists sorted.
  - destruct (sort_insert_pure x sorted) as [s Hs].
    destruct (IH s) as [r Hr]. exists r. intros g.
    unfold bind. now rewrite Hs, Hr.
Qed.

Lemma Array_sort_pure (l : list A) :
  exists r, forall g, Array_sort cmp l g = (r, g).
Proof. apply sort_from_pure. Qed.

End SortFacts.

Lemma slice0_length {A} (n : nat) (l : list A) : (length (slice0 n l) <= n)%nat.
Proof. unfold slice0. rewrite length_firstn. lia. Qed.

Lemma slice0_In {A} (n : nat) (l : list A) (x : A) : In x (slice0 n l) -> In x l.
Proof.
  unfold slice0. intros H.
  rewrite <- (firstn_skipn n l). apply in_or_app. now left.
Qed.

End JSFacts.

(** ** The delivery fee *)

Module FeeFacts.
Import JS Helpers.

(** C4.  The delivery fee is the base fee of 2000 plus 2000 for every
    started kilometre: for every distance [d] the fee is
    [2000 + 2000 * ceil d], where [ceil d] is the one integer [n] with
    [n - 1 < d <= n]; a tenth of a kilometre costs what a full one costs
    (4000), and two kilometres cost 6000. *)
Theorem calculateDeliveryFee_ceil (d : Q) :
  calculateDeliveryFee d = 2000 + 2000 * Qceiling d
  /\ (forall n : Z, (inject_Z n - 1 < d)%Q -> (d <= inject_Z n)%Q ->
        calculateDeliveryFee d = 2000 + 2000 * n)
  /\ calculateDeliveryFee (1 # 10) = 4000
  /\ calculateDeliveryFee 1 = 4000
  /\ calculateDeliveryFee 2 = 6000.
Proof.
  split; [reflexivity |]. split; [| repeat split; reflexivity].
  intros n Hlo Hhi. unfold calculateDeliveryFee, baseFee, perKmFee.
  assert (Qceiling d = n) as ->; [| reflexivity].
  apply Z.le_antisymm.
  - rewrite <- (Qceiling_Z n). now apply Qceiling_resp_le.
  - assert (n - 1 < Qceiling d); [| lia].
    rewrite Zlt_Qlt. eapply Qlt_le_trans; [| apply Qle_ceiling].
    unfold Zminus. rewrite inject_Z_plus. exact Hlo.
Qed.

Lemma calculateDeliveryFee_ceil_witness :
  calculateDeliveryFee (1 # 10) = 2000 + 2000 * 1.
Proof.
  apply (proj1 (proj2 (calculateDeliveryFee_ceil (1 # 10))) 1).
  - reflexivity.
  - discriminate.
Defined.

End FeeFacts.

(** ** The recommendation engine *)

Module RecommendFacts.
Import JS Http Schema Recommend Spec JSFacts.

Lemma has_true (set : gset string) (x : string) : has set x = true <-> x ∈ set.
Proof. unfold has. apply bool_decide_eq_true. Qed.

Lemma has_false (set : gset string) (x : string) : has set x = false <-> x ∉ set.
Proof. unfold has. apply bool_decide_eq_false. Qed.

Lemma elem_of_add_lowered (l : list string) (set : gset string) (x : string) :
  x ∈ add_lowered l set <-> x ∈ set \/ exists y, In y l /\ x = toLowerCase y.
Proof.
  unfold add_lowered. revert set.
  induction l as [| a l IH]; intros set; simpl.
  - split; [now left | intros [H | (y & [] & _)]; exact H].
  - rewrite IH, elem_of_union, elem_of_singleton. split.
    + intros [[H | H] | (y & Hy & Hx)]; eauto.
    + intros [H | (y & [<- | Hy] & Hx)]; eauto.
Qed.

Lemma same_word_true (a b : string) : same_word a b = true <-> toLowerCase a = toLowerCase b.
Proof. unfold same_word. apply String.eqb_eq. Qed.

(** Membership in a set of lowered words, read back on the words. *)
Lemma lowered_named (words : list string) (set : gset string) (i : string) :
  (forall x, x ∈ set <-> exists w, In w words /\ x = toLowerCase w) ->
  has set (toLowerCase i) = existsb (same_word i) words.
Proof.
  intros Hset. apply eq_true_iff_eq.
  rewrite has_true, Hset, existsb_exists. split.
  - intros (w & Hw & Heq). exists w. split; [exact Hw |]. now apply same_word_true.
  - intros (w & Hw & Heq). exists w. split; [exact Hw |]. now apply same_word_true.
Qed.

(** *** The scoring loop *)

Lemma score_ingredient_flag (rec avoid : gset string) (t : tally) (i : string) :
  hasAvoidedIngredients (score_ingredient rec avoid t i)
  = (hasAvoidedIngredients t || has avoid (toLowerCase i))%bool.
Proof.
  unfold score_ingredient.
  destruct (has avoid (toLowerCase i)), (has rec (toLowerCase i)); simpl;
    now rewrite ?orb_true_r, ?orb_false_r.
Qed.

Lemma fold_score_flag (rec avoid : gset string) (l : list string) (t : tally) :
  hasAvoidedIngredients (fold_left (score_ingredient rec avoid) l t)
  = (hasAvoidedIngredients t || existsb (fun i => has avoid (toLowerCase i)) l)%bool.
Proof.
  revert t. induction l as [| i l IH]; intros t; simpl.
  - now rewrite orb_false_r.
  - now rewrite IH, score_ingredient_flag, orb_assoc.
Qed.

Lemma score_product_flag (rec avoid : gset string) (symptoms : list string) (p : product) :
  hasAvoidedIngredients (score_product rec avoid symptoms p)
  = existsb (fun i => has avoid (toLowerCase i)) (array_elements (ingredients p)).
Proof. unfold score_product. simpl. now rewrite fold_score_flag. Qed.

Lemma no_avoided_spec (avoid : gset string) (p : product) :
  no_avoided avoid p
  = negb (existsb (fun i => has avoid (toLowerCase i)) (array_elements (ingredients p))).
Proof.
  unfold no_avoided.
  destruct (ingredients p); simpl; rewrite ?andb_false_r; reflexivity.
Qed.

Lemma score_benefit_count (symptoms : list string) (benefit : string) (s : Z) :
  score_benefit symptoms s benefit
  = s + 3 * Z.of_nat (length (List.filter (overlaps benefit) symptoms)).
Proof.
  unfold score_benefit. revert s.
  induction symptoms as [| y l IH]; intros s; simpl; [lia |].
  rewrite IH. destruct (overlaps benefit y); simpl length; lia.
Qed.

Lemma fold_score_benefit (symptoms benefits : list string) (s : Z) :
  fold_left (score_benefit symptoms) benefits s
  = s + 3 * Z.of_nat (overlap_count symptoms benefits).
Proof.
  unfold overlap_count. revert s.
  induction benefits as [| b l IH]; intros s; simpl; [lia |].
  rewrite IH, score_benefit_count. lia.
Qed.

(** *** [map] with a throwing callback *)

Lemma map_throwing_In {A B} (cb : A -> option B) (l : list A) (ys : list B) (y : B) :
  map_throwing cb l = Some ys -> In y ys -> exists x, In x l /\ cb x = Some y.
Proof.
  revert ys. induction l as [| x l IH]; intros ys; simpl.
  - intros [= <-] [].
  - destruct (cb x) as [y0 |] eqn:Hx; [| discriminate].
    destruct (map_throwing cb l) as [ys0 |]; [| discriminate].
    intros [= <-] [<- | Hin].
    + exists x. auto.
    + destruct (IH ys0 eq_refl Hin) as (x' & Hx' & Hcb). exists x'. auto.
Qed.

Lemma scored_flag (rec avoid : gset string) (symptoms : list string) (p : product)
  (r : recommendation) :
  scored rec avoid symptoms p = Some r ->
  rec_product r = p
  /\ has_avoided_ingredients r
     = existsb (fun i => has avoid (toLowerCase i)) (array_elements (ingredients p)).
Proof.
  unfold scored.
  destruct (generateRecommendationReasons _ _ _); [| discriminate].
  intros [= <-]. split; [reflexivity | exact (score_product_flag rec avoid symptoms p)].
Qed.

(** *** The ranking does not read [Math.random] *)

Lemma ranking_pure (l : list recommendation) :
  exists ranked, Permutation ranked l /\ forall g, Array_sort by_score_desc l g = (ranked, g).
Proof.
  destruct (Array_sort_pure by_score_desc) with (l := l) as [ranked Hr].
  - intros a b. eexists. intros g. reflexivity.
  - exists ranked. split; [| exact Hr].
    pose proof (Array_sort_perm by_score_desc l {| draws := fun _ => 0%Q; pos := 0 |}) as Hp.
    now rewrite Hr in Hp.
Qed.

Lemma slice0_3_nil {A} (l : list A) : slice0 3 l = [] <-> l = [].
Proof. destruct l; simpl; split; intros; congruence. Qed.

(** *** The three ways a request ends

    Either the request is answered with an error, or its symptoms select
    mappings, every available product is scored, and the products that
    qualify are ranked; the caller then sees the first three of the
    ranking or, when nothing qualifies, the first three of a shuffle of
    the products that carry no avoided ingredient. *)
Lemma getRecommendations_paths (db : catalog) (body : request) :
  (forall g, surfaced (fst (getRecommendations db body g)) = []
             /\ success (fst (getRecommendations db body g)) = false)
  \/ exists syms rec avoid0 scoredProducts ranked,
       symptoms body = JArr syms
       /\ collect (select_symptom_in (symptoms_ingredients db) (map toLowerCase syms)) ∅ ∅
          = Some (rec, avoid0)
       /\ map_throwing (scored rec (add_lowered (allergies body) avoid0) syms)
            (select_available (products db)) = Some scoredProducts
       /\ Permutation ranked (List.filter qualifies scoredProducts)
       /\ ((ranked <> []
            /\ forall g,
                 surfaced (fst (getRecommendations db body g)) = slice0 3 ranked
                 /\ message (fst (getRecommendations db body g))
                    = "Recommendations generated successfully")
           \/ (ranked = []
               /\ forall g,
                    surfaced (fst (getRecommendations db body g))
                    = map general
                        (slice0 3
                           (fst (Array_sort coin_flip
                                   (List.filter
                                      (no_avoided (add_lowered (allergies body) avoid0))
                                      (select_available (products db))) g)))
                    /\ message (fst (getRecommendations db body g)) = fallback_message)).
Proof.
  unfold getRecommendations.
  destruct (symptoms body) as [| b | q | s | syms |] eqn:Hsym;
    try (left; intros g; split; reflexivity).
  destruct syms as [| s0 syms]; [left; intros g; split; reflexivity |].
  destruct (symptomError db); [left; intros g; split; reflexivity |].
  destruct (collect _ ∅ ∅) as [[rec avoid0] |] eqn:Hcol;
    [| left; intros g; split; reflexivity].
  destruct (productsError db); [left; intros g; split; reflexivity |].
  destruct (map_throwing _ _) as [scoredProducts |] eqn:Hmap;
    [| left; intros g; split; reflexivity].
  right.
  destruct (ranking_pure (List.filter qualifies scoredProducts))
    as (ranked & Hperm & Hsort).
  exists (s0 :: syms), rec, avoid0, scoredProducts, ranked.
  repeat (split; [first [reflexivity | assumption] |]).
  destruct ranked as [| r0 ranked].
  - right. split; [reflexivity |]. intros g.
    unfold bind. rewrite Hsort. simpl.
    destruct (Array_sort coin_flip _ g) as [shuffled g']. simpl.
    split; reflexivity.
  - left. split; [discriminate |]. intros g.
    unfold bind. rewrite Hsort. simpl. split; reflexivity.
Qed.

(** *** What the avoid set holds *)

Lemma forEach_elements_array (v : jsonb) (l : list string) :
  forEach_elements v = Some l -> l = array_elements v.
Proof.
  destruct v as [| [] | q | s | l0 |]; simpl; try destruct (negb _);
    intros [= <-]; reflexivity.
Qed.

Lemma collect_avoid (mappings : list symptom_mapping) (rec avoid rec' avoid' : gset string)
  (x : string) :
  collect mappings rec avoid = Some (rec', avoid') ->
  x ∈ avoid' <->
  x ∈ avoid
  \/ exists w, In w (flat_map (fun row => array_elements (avoid_ingredients row)) mappings)
              /\ x = toLowerCase w.
Proof.
  revert rec avoid. induction mappings as [| m ms IH]; intros rec avoid; simpl.
  - intros [= <- <-]. split; [now left | intros [H | (w & [] & _)]; exact H].
  - destruct (forEach_elements (recommended_ingredients m)) as [rs |]; [| discriminate].
    destruct (forEach_elements (avoid_ingredients m)) as [avs |] eqn:Havs; [| discriminate].
    apply forEach_elements_array in Havs. subst avs.
    intros Hcol. rewrite (IH _ _ Hcol), elem_of_add_lowered. split.
    + intros [[H | (w & Hw & Hx)] | (w & Hw & Hx)]; [now left | right .. ];
        exists w; (split; [apply in_or_app; auto | exact Hx]).
    + intros [H | (w & Hw & Hx)]; [now left; left |].
      apply in_app_or in Hw as [Hw | Hw]; [left; right | right]; eauto.
Qed.

(** The avoid set of a request is its avoided words, lowered. *)
Lemma avoid_set_words (db : catalog) (syms allergies : list string)
  (rec avoid0 : gset string) (x : string) :
  collect (select_symptom_in (symptoms_ingredients db) (map toLowerCase syms)) ∅ ∅
  = Some (rec, avoid0) ->
  x ∈ add_lowered allergies avoid0 <->
  exists w, In w (avoided_words db syms allergies) /\ x = toLowerCase w.
Proof.
  intros Hcol. unfold avoided_words.
  rewrite elem_of_add_lowered, (collect_avoid _ _ _ _ _ x Hcol). split.
  - intros [[H | (w & Hw & Hx)] | (w & Hw & Hx)].
    + now apply not_elem_of_empty in H.
    + exists w. split; [apply in_or_app; now right | exact Hx].
    + exists w. split; [apply in_or_app; now left | exact Hx].
  - intros (w & Hw & Hx). apply in_app_or in Hw as [Hw | Hw]; eauto.
Qed.

Lemma negb_existsb {A} (f : A -> bool) (l : list A) :
  negb (existsb f l) = forallb (fun x => negb (f x)) l.
Proof.
  induction l as [| x l IH]; simpl; [reflexivity |].
  now rewrite negb_orb, IH.
Qed.

Lemma no_avoided_free_of (words : list string) (avoid : gset string) (p : product) :
  (forall x, x ∈ avoid <-> exists w, In w words /\ x = toLowerCase w) ->
  no_avoided avoid p = free_of words p.
Proof.
  intros Hset. rewrite no_avoided_spec. unfold free_of.
  rewrite negb_existsb.
  induction (array_elements (ingredients p)) as [| i l IH]; simpl; [reflexivity |].
  now rewrite IH, (lowered_named words avoid i Hset).
Qed.

(** A product that passes the avoid set names no allergy of the caller. *)
Lemma clean_free_of (allergies : list string) (avoid0 : gset string) (p : product) :
  existsb (fun i => has (add_lowered allergies avoid0) (toLowerCase i))
    (array_elements (ingredients p)) = false ->
  free_of allergies p = true.
Proof.
  intros Hclean. unfold free_of. apply forallb_forall. intros i Hi.
  apply negb_true_iff. destruct (existsb (same_word i) allergies) eqn:Hex; [| reflexivity].
  apply existsb_exists in Hex as (a & Ha & Hsame). apply same_word_true in Hsame.
  assert (existsb (fun i => has (add_lowered allergies avoid0) (toLowerCase i))
            (array_elements (ingredients p)) = true) as Habs; [| congruence].
  apply existsb_exists. exists i. split; [exact Hi |].
  apply has_true, elem_of_add_lowered. right. eauto.
Qed.

(** *** The claims *)

(** C3.  Whatever the symptoms and the allergies, and on the scored path
    as on the fallback path, no recommendation the caller sees has
    [has_avoided_ingredients] set, and none is for a product one of whose
    ingredients (the elements of its [ingredients] array) is, up to
    letter case, one of the caller's allergies. *)
Theorem no_allergen_surfaced (db : catalog) (body : request) (g : prng) :
  Forall (fun r => has_avoided_ingredients r = false
                   /\ free_of (allergies body) (rec_product r) = true)
    (surfaced (fst (getRecommendations db body g))).
Proof.
  destruct (getRecommendations_paths db body)
    as [Herr | (syms & rec & avoid0 & scoredProducts & ranked
                & Hsym & Hcol & Hmap & Hperm & [[Hne Hrun] | [Hnil Hrun]])].
  - rewrite (proj1 (Herr g)). constructor.
  - rewrite (proj1 (Hrun g)). apply List.Forall_forall. intros r Hr.
    apply slice0_In in Hr. apply (Permutation_in _ Hperm) in Hr.
    apply filter_In in Hr as [Hin Hq].
    unfold qualifies in Hq. apply andb_true_iff in Hq as [Hflag _].
    apply negb_true_iff in Hflag. split; [exact Hflag |].
    destruct (map_throwing_In _ _ _ _ Hmap Hin) as (p & _ & Hp).
    apply scored_flag in Hp as [-> Hp]. rewrite Hflag in Hp.
    now apply clean_free_of with (avoid0 := avoid0).
  - rewrite (proj1 (Hrun g)). apply List.Forall_forall. intros r Hr.
    apply in_map_iff in Hr as (p & <- & Hp). split; [reflexivity |].
    apply slice0_In in Hp.
    apply (Permutation_in _ (Array_sort_perm coin_flip _ g)) in Hp.
    apply filter_In in Hp as [_ Hp]. rewrite no_avoided_spec in Hp.
    apply negb_true_iff in Hp. simpl.
    now apply clean_free_of with (avoid0 := avoid0).
Qed.

Lemma surfaced_length (db : catalog) (body : request) (g : prng) :
  (length (surfaced (fst (getRecommendations db body g))) <= 3)%nat.
Proof.
  destruct (getRecommendations_paths db body)
    as [Herr | (syms & rec & avoid0 & scoredProducts & ranked
                & _ & _ & _ & _ & [[_ Hrun] | [_ Hrun]])].
  - rewrite (proj1 (Herr g)). simpl. lia.
  - rewrite (proj1 (Hrun g)). apply slice0_length.
  - rewrite (proj1 (Hrun g)), length_map. apply slice0_length.
Qed.

(** C6, as amended.  The list a request returns never has more than
    three entries; and when both queries answer and the scored pass
    yields no qualifying product, the fallback list has
    [min 3 n] entries, where [n] counts the available products none of
    whose ingredients is, up to letter case, an avoided word of the
    request: an allergy of the caller or an [avoid_ingredients] entry of a
    mapping the symptoms select. *)
Theorem fallback_count (db : catalog) (body : request) (g : prng) (syms : list string) :
  (length (surfaced (fst (getRecommendations db body g))) <= 3)%nat
  /\ (symptoms body = JArr syms -> syms <> [] ->
      symptomError db = false -> productsError db = false ->
      scored_pass db syms (allergies body) = Some [] ->
      message (fst (getRecommendations db body g)) = fallback_message
      /\ length (surfaced (fst (getRecommendations db body g)))
         = Nat.min 3 (count_free_of (avoided_words db syms (allergies body)) (products db))).
Proof.
  split; [apply surfaced_length |].
  intros Hsym Hne HsE HpE Hpass.
  unfold scored_pass in Hpass. unfold getRecommendations.
  rewrite Hsym, HsE. destruct syms as [| s0 syms]; [congruence |].
  destruct (collect _ ∅ ∅) as [[rec avoid0] |] eqn:Hcol; [| discriminate].
  rewrite HpE.
  destruct (map_throwing _ _) as [scoredProducts |]; [| discriminate].
  injection Hpass as Hpass. rewrite Hpass.
  unfold bind.
  change (Array_sort by_score_desc [] g) with (@nil recommendation, g).
  cbn [slice0 firstn length Nat.eqb].
  pose proof (Array_sort_perm coin_flip
                (List.filter (no_avoided (add_lowered (allergies body) avoid0))
                   (select_available (products db))) g) as Hperm.
  destruct (Array_sort coin_flip _ g) as [shuffled g'].
  cbn [fst surfaced data ok recommendations message] in *.
  cbn [ret fst surfaced data ok recommendations message].
  split; [reflexivity |]. unfold slice0.
  rewrite length_map. rewrite length_firstn.
  rewrite (Permutation_length Hperm). unfold count_free_of.
  f_equal. f_equal. apply filter_ext. intros p.
  apply no_avoided_free_of. intros x. now apply avoid_set_words with (rec := rec).
Qed.

Lemma fallback_count_witness :
  length (surfaced (fst (getRecommendations
                           (Scenario.shelf
                              [Scenario.banana_lassi; Scenario.mango_tango; Scenario.berry_blast]
                              [Scenario.flu])
                           (Scenario.ask ["flu"] ["Mango"])
                           (Scenario.constant_source (1 # 4)))))
  = Nat.min 3 (count_free_of
                 (avoided_words
                    (Scenario.shelf
                       [Scenario.banana_lassi; Scenario.mango_tango; Scenario.berry_blast]
                       [Scenario.flu])
                    ["flu"] ["Mango"])
                 [Scenario.banana_lassi; Scenario.mango_tango; Scenario.berry_blast]).
Proof.
  refine (proj2 (proj2 (fallback_count _ _ _ ["flu"]) _ _ _ _ _)).
  - reflexivity.
  - discriminate.
  - reflexivity.
  - reflexivity.
  - vm_compute. reflexivity.
Defined.

(** C6, as the claim states it, fails: the flu mapping avoids dairy, the
    only product on the shelf contains dairy, and the caller names no
    allergy.  The scored pass yields nothing, the fallback list is empty,
    yet one product has no ingredient among the caller's allergies. *)
Lemma fallback_count_counterexample :
  scored_pass Scenario.dairy_shelf ["flu"] (allergies Scenario.flu_no_allergy) = Some []
  /\ message Scenario.dairy_run = fallback_message
  /\ length (surfaced Scenario.dairy_run) = 0%nat
  /\ Nat.min 3 (count_free_of (allergies Scenario.flu_no_allergy)
                  (products Scenario.dairy_shelf)) = 1%nat
  /\ length (surfaced Scenario.dairy_run)
     <> Nat.min 3 (count_free_of (allergies Scenario.flu_no_allergy)
                     (products Scenario.dairy_shelf)).
Proof. vm_compute. repeat split; try reflexivity. discriminate. Qed.

(** C7, as amended.  The fallback is a random selection.  Whether a
    request takes the fallback path does not depend on the random draws,
    and two runs on the same symptoms, allergies, catalog and mappings
    return fallback lists of the same length, each made of the first
    three entries of some reordering of the eligible products: the
    available products with no ingredient among the avoided words of the
    request.  Which entries, and in which order, is decided by the draws
    of [Math.random]. *)
Theorem fallback_runs_agree_up_to_order (db : catalog) (body : request) (g1 g2 : prng) :
  message (fst (getRecommendations db body g1)) = fallback_message ->
  message (fst (getRecommendations db body g2)) = fallback_message
  /\ length (surfaced (fst (getRecommendations db body g1)))
     = length (surfaced (fst (getRecommendations db body g2)))
  /\ exists syms,
       symptoms body = JArr syms
       /\ forall g, exists shuffled,
            Permutation shuffled
              (List.filter (free_of (avoided_words db syms (allergies body)))
                 (select_available (products db)))
            /\ surfaced (fst (getRecommendations db body g))
               = map general (slice0 3 shuffled).
Proof.
  intros Hmsg.
  destruct (getRecommendations_paths db body)
    as [Herr | (syms & rec & avoid0 & scoredProducts & ranked
                & Hsym & Hcol & _ & _ & [[_ Hrun] | [_ Hrun]])].
  - pose proof (proj2 (Herr g1)) as Hfail.
    unfold getRecommendations in Hmsg, Hfail.
    exfalso. revert Hmsg Hfail.
    destruct (symptoms body) as [| b | q | s | [| s0 syms] |]; try discriminate.
    destruct (symptomError db); [discriminate |].
    destruct (collect _ ∅ ∅) as [[rec avoid0] |]; [| discriminate].
    destruct (productsError db); [discriminate |].
    destruct (map_throwing _ _) as [scoredProducts |]; [| discriminate].
    unfold bind. destruct (Array_sort by_score_desc _ g1) as [ranked g'].
    destruct (Nat.eqb _ 0).
    + destruct (Array_sort coin_flip _ g') as [shuffled g'']. discriminate.
    + discriminate.
  - rewrite (proj2 (Hrun g1)) in Hmsg. discriminate.
  - split; [apply (proj2 (Hrun g2)) |]. split.
    + rewrite (proj1 (Hrun g1)), (proj1 (Hrun g2)), !length_map.
      unfold slice0. rewrite !length_firstn.
      now rewrite !(Permutation_length (Array_sort_perm coin_flip _ _)).
    + exists syms. split; [exact Hsym |]. intros g. eexists.
      split; [| apply (proj1 (Hrun g))].
      rewrite Array_sort_perm.
      erewrite filter_ext; [reflexivity |]. intros p.
      apply no_avoided_free_of. intros x. now apply avoid_set_words with (rec := rec).
Qed.

Lemma fallback_runs_agree_up_to_order_witness :
  message Scenario.run_high = fallback_message
  /\ length (surfaced Scenario.run_low) = length (surfaced Scenario.run_high).
Proof.
  refine ((fun H => conj (proj1 H) (proj1 (proj2 H)))
            (fallback_runs_agree_up_to_order Scenario.two_juices Scenario.insomnia
               (Scenario.constant_source (1 # 4)) (Scenario.constant_source (3 # 4)) _)).
  reflexivity.
Defined.

(** C7, as the claim states it, fails: the same request against the same
    two-product catalog takes the fallback path in both runs and returns
    the two products in opposite orders, according to whether
    [Math.random() - 0.5] comes out negative or not. *)
Lemma fallback_not_deterministic :
  message Scenario.run_low = fallback_message
  /\ message Scenario.run_high = fallback_message
  /\ map (fun r => product_name (rec_product r)) (surfaced Scenario.run_low)
     = ["Green Revitalizer"; "Mango Tango"]
  /\ map (fun r => product_name (rec_product r)) (surfaced Scenario.run_high)
     = ["Mango Tango"; "Green Revitalizer"]
  /\ surfaced Scenario.run_low <> surfaced Scenario.run_high.
Proof.
  repeat split; try (vm_compute; reflexivity).
  intros Heq.
  apply (f_equal (map (fun r => product_name (rec_product r)))) in Heq.
  vm_compute in Heq. discriminate.
Qed.

(** C8, as amended.  The engine lower-cases the requested symptoms and
    selects exactly the mappings whose stored [symptom] is, character for
    character, one of the lowered strings.  For a mapping stored in lower
    case this is the comparison up to letter case; a mapping whose stored
    symptom has an upper-case letter is selected by no request. *)
Theorem symptom_lookup_exact (table : list symptom_mapping) (symptoms : list string)
  (row : symptom_mapping) :
  (In row (select_symptom_in table (map toLowerCase symptoms))
   <-> In row table /\ exists s, In s symptoms /\ symptom row = toLowerCase s)
  /\ (toLowerCase (symptom row) = symptom row ->
      In row (select_symptom_in table (map toLowerCase symptoms))
      <-> In row (lookup_ignoring_case table symptoms))
  /\ (toLowerCase (symptom row) <> symptom row ->
      ~ In row (select_symptom_in table (map toLowerCase symptoms))).
Proof.
  assert (In row (select_symptom_in table (map toLowerCase symptoms))
          <-> In row table /\ exists s, In s symptoms /\ symptom row = toLowerCase s)
    as Hexact.
  { unfold select_symptom_in. rewrite List.filter_In, existsb_exists.
    split; intros [Hin Hex]; (split; [exact Hin |]).
    - destruct Hex as (v & Hv & Heq). apply String.eqb_eq in Heq.
      apply in_map_iff in Hv as (s & <- & Hs). eauto.
    - destruct Hex as (s & Hs & Heq). exists (toLowerCase s).
      split; [now apply in_map | now apply String.eqb_eq]. }
  split; [exact Hexact |]. split.
  - intros Hlow. rewrite Hexact. unfold lookup_ignoring_case.
    rewrite List.filter_In, existsb_exists.
    split; intros [Hin (s & Hs & Heq)]; (split; [exact Hin |]); exists s;
      (split; [exact Hs |]).
    + apply same_word_true. now rewrite Hlow.
    + apply same_word_true in Heq. now rewrite <- Hlow.
  - intros Hup Hin. apply Hexact in Hin as [_ (s & _ & Heq)].
    apply Hup. rewrite Heq. apply toLowerCase_idem.
Qed.

Lemma symptom_lookup_exact_witness :
  (In Scenario.flu (select_symptom_in [Scenario.flu] (map toLowerCase ["FLU"]))
   <-> In Scenario.flu (lookup_ignoring_case [Scenario.flu] ["FLU"]))
  /\ ~ In Scenario.Flu_capitalised
         (select_symptom_in [Scenario.Flu_capitalised] (map toLowerCase ["flu"])).
Proof.
  split.
  - apply (proj1 (proj2 (symptom_lookup_exact [Scenario.flu] ["FLU"] Scenario.flu))).
    reflexivity.
  - apply (proj2 (proj2 (symptom_lookup_exact [Scenario.Flu_capitalised] ["flu"]
                           Scenario.Flu_capitalised))).
    discriminate.
Defined.

(** C8, as the claim states it, fails: the mapping stored as [Flu] equals
    the requested [flu] up to letter case, and the engine does not select
    it, in whichever casing the word is requested. *)
Lemma capitalised_symptom_not_matched :
  lookup_ignoring_case [Scenario.Flu_capitalised] ["flu"] = [Scenario.Flu_capitalised]
  /\ select_symptom_in [Scenario.Flu_capitalised] (map toLowerCase ["flu"]) = []
  /\ select_symptom_in [Scenario.Flu_capitalised] (map toLowerCase ["Flu"]) = []
  /\ select_symptom_in [Scenario.Flu_capitalised] (map toLowerCase ["FLU"]) = []
  /\ select_symptom_in [Scenario.Flu_capitalised] (map toLowerCase ["flu"])
     <> lookup_ignoring_case [Scenario.Flu_capitalised] ["flu"].
Proof. repeat split; try reflexivity. discriminate. Qed.

(** C10.  A product whose [ingredients] field is absent or is not an
    array is never marked [has_avoided_ingredients] and always passes the
    fallback's avoided-ingredient filter, whatever the avoid set holds;
    it matches no ingredient, and its score is three points for every
    (health benefit, symptom) pair that overlaps textually, and nothing
    else. *)
Theorem non_array_ingredients_unchecked (rec avoid : gset string) (symptoms : list string)
  (p : product) :
  isArray (ingredients p) = false ->
  hasAvoidedIngredients (score_product rec avoid symptoms p) = false
  /\ matchedIngredients (score_product rec avoid symptoms p) = []
  /\ score (score_product rec avoid symptoms p)
     = 3 * Z.of_nat (overlap_count symptoms (array_elements (health_benefits p)))
  /\ no_avoided avoid p = true
  /\ (forall r, scored rec avoid symptoms p = Some r ->
        has_avoided_ingredients r = false
        /\ matched_ingredients r = []
        /\ recommendation_score r
           = 3 * Z.of_nat (overlap_count symptoms (array_elements (health_benefits p)))).
Proof.
  intros Harr.
  assert (array_elements (ingredients p) = []) as Hnone.
  { destruct (ingredients p); simpl in *; congruence. }
  assert (hasAvoidedIngredients (score_product rec avoid symptoms p) = false
          /\ matchedIngredients (score_product rec avoid symptoms p) = []
          /\ score (score_product rec avoid symptoms p)
             = 3 * Z.of_nat (overlap_count symptoms (array_elements (health_benefits p))))
    as (Hflag & Hmatched & Hscore).
  { unfold score_product. rewrite Hnone. cbn [fold_left tally0 score matchedIngredients
                                                hasAvoidedIngredients].
    repeat split. rewrite fold_score_benefit. lia. }
  split; [exact Hflag |]. split; [exact Hmatched |]. split; [exact Hscore |].
  split; [rewrite no_avoided_spec, Hnone; reflexivity |].
  intros r Hr. unfold scored in Hr.
  destruct (generateRecommendationReasons _ _ _); [| discriminate].
  injection Hr as <-. cbn [has_avoided_ingredients matched_ingredients recommendation_score].
  split; [exact Hflag |]. split; [exact Hmatched | exact Hscore].
Qed.

(** The peanut shake lists its ingredients in a string; a caller allergic
    to peanut and milk is recommended it all the same, for its one
    benefit that mentions the flu. *)
Lemma non_array_ingredients_unchecked_witness :
  no_avoided (add_lowered ["peanut"; "milk"] ∅) Scenario.peanut_shake = true
  /\ score (score_product ∅ (add_lowered ["peanut"; "milk"] ∅) ["flu"] Scenario.peanut_shake)
     = 3
  /\ map (fun r => (product_name (rec_product r), recommendation_score r,
                    has_avoided_ingredients r))
       (surfaced (fst (getRecommendations
                         (Scenario.shelf [Scenario.peanut_shake] [Scenario.flu])
                         (Scenario.ask ["flu"] ["peanut"; "milk"])
                         (Scenario.constant_source (1 # 4)))))
     = [("Peanut Shake", 3, false)].
Proof.
  pose proof (non_array_ingredients_unchecked ∅ (add_lowered ["peanut"; "milk"] ∅)
                ["flu"] Scenario.peanut_shake eq_refl) as (_ & _ & Hscore & Hpass & _).
  split; [exact Hpass |]. split; [exact Hscore |].
  vm_compute. reflexivity.
Defined.

End RecommendFacts.

(** ** The order pipeline *)

Module OrderFacts.
Import JS Http Helpers Schema Orders Spec.

Lemma fresh_order_id (s : store) : orders s !! fresh (dom (orders s)) = None.
Proof. apply not_elem_of_dom, is_fresh. Qed.

(** *** Pricing the line items *)

Lemma price_items_spec (e : env) (items : list item_request) :
  forall (total0 : number) (acc : list priced_item) (w : world)
         (total : number) (its : list priced_item) (w' : world),
    price_items e items total0 acc w = (inl (total, its), w') ->
    exists new,
      its = (acc ++ new)%list
      /\ total = fold_left num_add (map pi_subtotal new) total0
      /\ db w' = db w /\ rng w' = rng w
      /\ log w' = (log w ++ map (fun it => SelectProduct (req_product_id it)) items)%list
      /\ Forall2 (priced e) items new.
Proof.
  induction items as [| item rest IH]; intros total0 acc w total its w'; simpl.
  - intros [= <- <- <-]. exists []. rewrite !app_nil_r. repeat split. constructor.
  - destruct (select_product e (req_product_id item)) as [product |] eqn:Hsel;
      [| discriminate].
    intros Hrest. apply IH in Hrest as (new & -> & -> & Hdb & Hrng & Hlog & Hpriced).
    eexists (_ :: new). rewrite <- app_assoc. simpl.
    repeat split; try assumption.
    + rewrite Hlog. simpl. now rewrite <- app_assoc.
    + constructor; [| apply Hpriced].
      exists product. repeat split. exact Hsel.
Qed.

(** Line amounts are products in doubles: 1.1 litres at the seed price of
    12000 come to 13200 + 2^-39 (printed 13200.000000000002), and at
    19999.99 to 21999.989000000005..., not to 13200 and 21999.989. *)
Lemma line_amount_in_doubles :
  value_of (line_amount Scenario.citrus_sunrise (11 # 10))
  = (7256776743321601 # 549755813888)%Q
  /\ (value_of (line_amount Scenario.citrus_sunrise (11 # 10)) == 13200 + (1 # 2 ^ 39))%Q
  /\ value_of (line_amount Cases.premium_press (11 # 10))
     = (6047310929111025 # 274877906944)%Q
  /\ ~ (value_of (line_amount Cases.premium_press (11 # 10)) == 21999989 # 1000)%Q.
Proof.
  split; [vm_compute; reflexivity |]. split; [vm_compute; reflexivity |].
  split; [vm_compute; reflexivity |]. vm_compute. discriminate.
Qed.

(** What the store keeps of a priced line. *)
Lemma priced_stored (e : env) (id : nat) (items : list item_request)
  (new : list priced_item) :
  Forall2 (priced e) items new ->
  Forall2 (priced_from e) items (map (with_order_id e id) new).
Proof.
  induction 1 as [| req line items new (p & Hsel & Hid & Hq & Hu & Hs) _ IH]; simpl;
    constructor; [| exact IH].
  exists p. unfold with_order_id. cbn [item_product_id quantity_litres unit_price subtotal].
  rewrite Hq, Hu, Hs. repeat split; assumption.
Qed.

Lemma items_of_inserted (s : store) (id : nat) (rows : list order_item) :
  (forall it, In it (order_items s) -> order_id it <> id) ->
  Forall (fun it => order_id it = id) rows ->
  items_of (insert_items rows s) id = rows.
Proof.
  intros Hold Hrows. unfold items_of, insert_items. simpl.
  rewrite List.filter_app.
  assert (forall l, (forall it, In it l -> order_id it <> id) ->
                    List.filter (fun it => Nat.eqb (order_id it) id) l = []) as Hnone.
  { induction l as [| it l IHl]; intros Hl; simpl; [reflexivity |].
    destruct (Nat.eqb (order_id it) id) eqn:Heq.
    - apply Nat.eqb_eq in Heq. now destruct (Hl it (or_introl eq_refl)).
    - apply IHl. intros it' Hit'. apply Hl. now right. }
  rewrite (Hnone _ Hold). simpl.
  induction Hrows as [| it l Hit _ IHl]; simpl; [reflexivity |].
  rewrite (proj2 (Nat.eqb_eq _ _) Hit). now rewrite IHl.
Qed.

Lemma referential_fresh (s : store) (it : order_item) :
  referential s -> In it (order_items s) -> order_id it <> fresh (dom (orders s)).
Proof.
  intros Href Hit Heq. destruct (Href it Hit) as [o Ho].
  rewrite Heq, fresh_order_id in Ho. discriminate.
Qed.

Lemma with_order_id_all (e : env) (id : nat) (l : list priced_item) :
  Forall (fun it => order_id it = id) (map (with_order_id e id) l).
Proof. induction l; simpl; constructor; auto. Qed.

(** *** The foreign key is an invariant of the pipeline *)

Lemma price_items_db (e : env) (items : list item_request) :
  forall (total0 : number) (acc : list priced_item) (w : world),
    db (snd (price_items e items total0 acc w)) = db w.
Proof.
  induction items as [| item rest IH]; intros total0 acc w; simpl; [reflexivity |].
  destruct (select_product e (req_product_id item)); [| reflexivity].
  now rewrite IH.
Qed.

Lemma referential_insert_order (row : order) (s : store) :
  referential s -> referential (snd (insert_order row s)).
Proof.
  intros Href it Hit. simpl in *.
  destruct (decide (fresh (dom (orders s)) = order_id it)) as [<- | Hne].
  - rewrite lookup_insert_eq. eauto.
  - rewrite lookup_insert_ne by exact Hne. now apply Href.
Qed.

Lemma referential_delete_order (id : nat) (s : store) :
  referential s -> referential (delete_order id s).
Proof.
  intros Href it Hit. simpl in *.
  apply List.filter_In in Hit as [Hit Hne].
  apply negb_true_iff, Nat.eqb_neq in Hne.
  rewrite lookup_delete_ne by congruence. now apply Href.
Qed.

Lemma referential_insert_items (rows : list order_item) (s : store) :
  referential s ->
  (forall it, In it rows -> is_Some (orders s !! order_id it)) ->
  referential (insert_items rows s).
Proof.
  intros Href Hrows it Hit. simpl in *.
  apply in_app_or in Hit as [Hit | Hit]; auto.
Qed.

(** X25.  [createOrder] keeps the foreign key of [order_items]: if
    every stored line item belongs to a stored order before the call, the
    same holds after it, whatever the outcome, including a rollback that
    errors or goes through. *)
Theorem createOrder_referential (e : env) (userId : string) (body : create_body)
  (w : world) :
  referential (db w) -> referential (db (snd (createOrder e userId body w))).
Proof.
  intros Href. unfold createOrder. cbn [logged db].
  destruct (if outletError (fault e) then None else _) as [outlet |]; [| exact Href].
  pose proof (price_items_db e (items body) (Number_of_Z 0) []
                (logged RpcNearestOutlet w)) as Hdb.
  destruct (price_items e (items body) (Number_of_Z 0) [] _)
    as [[[total its] | missing] w1];
    simpl in Hdb; [| cbn [snd]; now rewrite Hdb].
  destruct (generateRiderInfo (rng w1)) as [rider g].
  destruct (orderError (fault e)); [cbn [snd logged db]; now rewrite Hdb |].
  cbn [logged db]. rewrite Hdb.
  match goal with
  | |- context [insert_order ?row (db w)] =>
      pose proof (referential_insert_order row (db w) Href) as Hins;
      destruct (insert_order row (db w)) as [id s] eqn:Hio
  end.
  assert (is_Some (orders s !! id)) as Hid.
  { unfold insert_order in Hio. injection Hio as <- <-. simpl.
    rewrite lookup_insert_eq. eauto. }
  simpl in Hins.
  destruct (itemsError (fault e)).
  - destruct (deleteError (fault e)); cbn [snd db with_db logged].
    + exact Hins.
    + now apply referential_delete_order.
  - cbn [snd db with_db logged]. apply referential_insert_items; [exact Hins |].
    intros it Hit. apply in_map_iff in Hit as (pit & <- & _). exact Hid.
Qed.

(** *** The claims *)

(** C1, as amended.  For every order that is created successfully, in
    a store that respects the foreign key of [order_items]: the line
    items are the requested items, in order; the pipeline prices each at
    the catalog's current [price_per_litre] times the requested quantity,
    multiplied in doubles, and the stored [unit_price] and [subtotal] are
    what the store keeps of that price and of that product at two
    decimals; the stored [total_amount] is what the store keeps, at two
    decimals, of the sum in doubles of the unrounded line amounts, taken
    from the left, plus the delivery fee; and the stored [delivery_fee]
    is [calculateDeliveryFee] of the resolved distance.  For half a litre
    at 15000 and one litre at 18000 delivered over 3 km the fee is 8000,
    the subtotals are 7500 and 18000, and the total is 33500, their sum
    plus the fee. *)
Theorem order_total :
  (forall (e : env) (userId : string) (body : create_body) (w : world),
      referential (db w) ->
      success (fst (createOrder e userId body w)) = true ->
      exists id row outlet lines,
        option_map view_id (data (fst (createOrder e userId body w))) = Some id
        /\ orders (db w) !! id = None
        /\ orders (db (snd (createOrder e userId body w))) !! id = Some row
        /\ get_nearest_outlet e (body_delivery_lat body) (body_delivery_lng body)
           = Some outlet
        /\ delivery_fee row = calculateDeliveryFee (distance_km outlet)
        /\ Forall2 (priced e) (items body) lines
        /\ items_of (db (snd (createOrder e userId body w))) id
           = map (with_order_id e id) lines
        /\ Forall2 (priced_from e) (items body)
             (items_of (db (snd (createOrder e userId body w))) id)
        /\ total_amount row
           = to_decimal e 2
               (num_add (running_total (map pi_subtotal lines))
                        (Number_of_Z (delivery_fee row))))
  /\ (success (fst Scenario.first_order) = true
      /\ option_map delivery_fee (orders (db Scenario.world1) !! 0%nat) = Some 8000
      /\ map (fun it => Qred (subtotal it)) (items_of (db Scenario.world1) 0)
         = [7500%Q; 18000%Q]
      /\ option_map (fun o => Qred (total_amount o)) (orders (db Scenario.world1) !! 0%nat)
         = Some 33500%Q
      /\ option_map
           (fun o => Qeq_bool (total_amount o)
                       (sum_subtotals (items_of (db Scenario.world1) 0)
                        + inject_Z (delivery_fee o)))
           (orders (db Scenario.world1) !! 0%nat)
         = Some true).
Proof.
  split; [| vm_compute; repeat split; reflexivity].
  intros e userId body w Href. unfold createOrder.
  destruct (outletError (fault e)); [discriminate |].
  destruct (get_nearest_outlet e _ _) as [outlet |] eqn:Houtlet; [| discriminate].
  destruct (price_items e (items body) (Number_of_Z 0) [] _)
    as [[[total its] | missing] w1] eqn:Hprice; [| discriminate].
  apply price_items_spec in Hprice as (new & -> & -> & Hdb & _ & _ & Hpriced).
  simpl in Hdb.
  destruct (generateRiderInfo (rng w1)) as [rider g].
  destruct (orderError (fault e)); [discriminate |].
  unfold insert_order. cbn [logged with_db db].
  destruct (itemsError (fault e)).
  { destruct (deleteError (fault e)); discriminate. }
  intros _. rewrite Hdb.
  set (id := fresh (dom (orders (db w)))).
  assert (orders (db w) !! id = None) as Hfresh by apply fresh_order_id.
  eexists id, _, outlet, new.
  cbn [fst snd data ok option_map view_id db with_db logged].
  rewrite items_of_inserted;
    [| intros it Hit; now apply referential_fresh | apply with_order_id_all].
  cbn [orders insert_items app].
  split; [reflexivity |]. split; [exact Hfresh |].
  split; [apply lookup_insert_eq |].
  repeat split; [exact Hpriced | now apply priced_stored].
Qed.

Lemma order_total_witness :
  exists id row lines,
    orders (db Scenario.world1) !! id = Some row
    /\ items_of (db Scenario.world1) id
       = map (with_order_id (Scenario.shop Scenario.no_faults) id) lines
    /\ total_amount row
       = Scenario.nearest_decimal 2
           (num_add (running_total (map pi_subtotal lines))
                    (Number_of_Z (delivery_fee row))).
Proof.
  destruct (proj1 order_total (Scenario.shop Scenario.no_faults) "u-1"
              Scenario.basket Scenario.world0)
    as (id & row & outlet & lines & _ & _ & Hrow & _ & _ & _ & Hitems & _ & Htotal).
  - intros it [].
  - reflexivity.
  - exists id, row, lines. split; [exact Hrow |]. split; [exact Hitems | exact Htotal].
Defined.

(** C1, as the claim states it, fails: two lines of 0.4 litres of a
    juice at 19999.99 a litre, delivered over 3 km.  The order is
    created; each line amounts to a little over 7999.996 and is stored
    with a [subtotal] of 8000.00; the fee is 8000; the running total, a
    little over 23999.992, is stored as 23999.99, which is not the sum of
    the stored subtotals plus the fee, 24000.00.  No stored subtotal is
    the price times the quantity, and neither is the amount the pipeline
    computes for a line. *)
Lemma order_total_not_sum_of_subtotals :
  success (fst Cases.premium_order) = true
  /\ exists id row,
      option_map view_id (data (fst Cases.premium_order)) = Some id
      /\ orders (db (snd Cases.premium_order)) !! id = Some row
      /\ delivery_fee row = 8000
      /\ map subtotal (items_of (db (snd Cases.premium_order)) id) = [8000%Q; 8000%Q]
      /\ total_amount row = (2399999 # 100)%Q
      /\ ~ (total_amount row
            == sum_subtotals (items_of (db (snd Cases.premium_order)) id)
               + inject_Z (delivery_fee row))%Q
      /\ Forall (fun it => ~ (subtotal it
                              == price_per_litre Cases.premium_press * (4 # 10))%Q)
           (items_of (db (snd Cases.premium_order)) id)
      /\ ~ (value_of (line_amount Cases.premium_press (4 # 10))
            == price_per_litre Cases.premium_press * (4 # 10))%Q.
Proof.
  split; [reflexivity |].
  exists 0%nat. eexists. split; [reflexivity |]. split; [vm_compute; reflexivity |].
  cbn [delivery_fee total_amount].
  split; [reflexivity |]. split; [vm_compute; reflexivity |].
  split; [vm_compute; reflexivity |]. split; [| split].
  - vm_compute. discriminate.
  - vm_compute. repeat constructor; discriminate.
  - vm_compute. discriminate.
Qed.

(** C2, as amended.  When the header insert succeeds and the line items
    insert fails, the pipeline issues a delete for the header it has just
    written and then reports the items-creation failure; the delete is
    the last store call of the request.  The outcome of the delete is not
    read: when it goes through, the [orders] table is what it was before
    the request and holds no header under the new id; when it errors, the
    header stays in the table. *)
Theorem rollback_on_items_failure
  (e : env) (userId : string) (body : create_body) (w w1 : world)
  (outlet : nearest_outlet) (total : number) (its : list priced_item) :
  outletError (fault e) = false ->
  get_nearest_outlet e (body_delivery_lat body) (body_delivery_lng body) = Some outlet ->
  price_items e (items body) (Number_of_Z 0) [] (logged RpcNearestOutlet w)
  = (inl (total, its), w1) ->
  orderError (fault e) = false ->
  itemsError (fault e) = true ->
  let id := fresh (dom (orders (db w))) in
  let out := createOrder e userId body w in
  fst out = failure 500 "Failed to create order items"
  /\ log (snd out) = (log w1 ++ [InsertOrder; InsertItems id; DeleteOrder id])%list
  /\ orders (db w) !! id = None
  /\ (deleteError (fault e) = false ->
      orders (db (snd out)) = orders (db w) /\ orders (db (snd out)) !! id = None)
  /\ (deleteError (fault e) = true ->
      orders (db (snd out)) !! id
      = Some (new_order userId body outlet
                (to_decimal e 2
                   (num_add total (Number_of_Z (calculateDeliveryFee (distance_km outlet)))))
                (calculateDeliveryFee (distance_km outlet))
                (calculateEstimatedDeliveryTime (now e) (distance_km outlet))
                (fst (generateRiderInfo (rng w))))).
Proof.
  intros HoE Houtlet Hprice HordE HitE id out. subst out. unfold createOrder.
  rewrite HoE, Houtlet, Hprice.
  apply price_items_spec in Hprice as (new & _ & _ & Hdb & Hrng & _ & _).
  simpl in Hdb, Hrng. rewrite Hrng.
  destruct (generateRiderInfo (rng w)) as [rider g].
  rewrite HordE. unfold insert_order. cbn [logged with_db db rng log].
  rewrite HitE, Hdb. fold id.
  assert (orders (db w) !! id = None) as Hfresh by apply fresh_order_id.
  destruct (deleteError (fault e)); cbn [fst snd log db with_db logged delete_order orders].
  - repeat split; try assumption; try discriminate.
    + now rewrite <- !app_assoc.
    + intros _. apply lookup_insert_eq.
  - repeat split; try assumption; try discriminate.
    + now rewrite <- !app_assoc.
    + now apply delete_insert_id.
    + rewrite delete_insert_id by exact Hfresh. exact Hfresh.
Qed.

Lemma rollback_on_items_failure_witness :
  fst (createOrder (Scenario.shop Scenario.items_fail) "u-1" Scenario.basket Scenario.world0)
  = failure 500 "Failed to create order items"
  /\ orders (db (snd (createOrder (Scenario.shop Scenario.items_fail) "u-1"
                        Scenario.basket Scenario.world0)))
     = orders (db Scenario.world0).
Proof.
  edestruct (rollback_on_items_failure (Scenario.shop Scenario.items_fail) "u-1"
               Scenario.basket Scenario.world0)
    as (Hresp & _ & _ & Hgone & _).
  - reflexivity.
  - reflexivity.
  - cbv. reflexivity.
  - reflexivity.
  - reflexivity.
  - split; [exact Hresp | exact (proj1 (Hgone eq_refl))].
Defined.

(** C2, as the claim states it, fails: the line items insert errors and
    so does the rollback delete.  The pipeline reports the items-creation
    failure and the header written under id 0 is still in the store, with
    no line item. *)
Lemma rollback_can_leave_header :
  fst Scenario.failed_rollback = failure 500 "Failed to create order items"
  /\ log (snd Scenario.failed_rollback)
     = [RpcNearestOutlet; SelectProduct "p-mango"; SelectProduct "p-green";
        InsertOrder; InsertItems 0; DeleteOrder 0]
  /\ orders (db Scenario.world0) !! 0%nat = None
  /\ option_map order_state (orders (db (snd Scenario.failed_rollback)) !! 0%nat)
     = Some pending
  /\ items_of (db (snd Scenario.failed_rollback)) 0 = [].
Proof. vm_compute. repeat split; reflexivity. Qed.

(** C5, as amended.  For an order the caller owns, cancellation succeeds
    only if the current status is [pending] or [confirmed], and from those
    two it succeeds whenever the store accepts the status update; on
    success the stored status is [cancelled].  From any other status the
    request is refused (400, the order cannot be cancelled at this stage)
    and, as on every failure, the store is left as it was. *)
Theorem cancel_guard (e : env) (userId : string) (id : nat) (w : world) (o : order) :
  fetchError (fault e) = false ->
  select_order (db w) id userId = Some o ->
  let out := cancelOrder e userId id w in
  (cancellable (order_state o) = true
   <-> order_state o = pending \/ order_state o = confirmed)
  /\ (success (fst out) = true
      <-> cancellable (order_state o) = true /\ updateError (fault e) = false)
  /\ (success (fst out) = true ->
      option_map order_state (orders (db (snd out)) !! id) = Some cancelled)
  /\ (cancellable (order_state o) = false ->
      fst out = failure 400 "Order cannot be cancelled at this stage")
  /\ (success (fst out) = false -> db (snd out) = db w).
Proof.
  intros HfE Hsel out. subst out. unfold cancelOrder.
  cbn [logged db]. rewrite HfE, Hsel.
  split.
  { destruct (order_state o); simpl; split; intros H;
      try discriminate; auto; destruct H; discriminate. }
  destruct (cancellable (order_state o)); simpl.
  - destruct (updateError (fault e)); simpl.
    + repeat split; try discriminate; intros H; try discriminate.
      destruct H; discriminate.
    + repeat split; try discriminate; try reflexivity. intros _.
      unfold select_order in Hsel.
      rewrite lookup_alter_eq.
      destruct (orders (db w) !! id); [reflexivity | discriminate].
  - repeat split; try discriminate; intros H; try discriminate.
    destruct H; discriminate.
Qed.

Lemma cancel_guard_witness :
  success (fst (cancelOrder (Scenario.shop Scenario.no_faults) "u-1" 0 Scenario.world1))
  = true
  /\ option_map order_state
       (orders (db (snd (cancelOrder (Scenario.shop Scenario.no_faults) "u-1" 0
                           Scenario.world1))) !! 0%nat)
     = Some cancelled.
Proof.
  edestruct (cancel_guard (Scenario.shop Scenario.no_faults) "u-1" 0 Scenario.world1)
    as (_ & Hiff & Hdone & _).
  - reflexivity.
  - vm_compute. reflexivity.
  - assert (success (fst (cancelOrder (Scenario.shop Scenario.no_faults) "u-1" 0
                            Scenario.world1)) = true) as Hok.
    { apply (proj2 Hiff). split; reflexivity. }
    split; [exact Hok | exact (Hdone Hok)].
Defined.

(** C5, as the claim states it, fails: the order is [pending], the store
    refuses the status update, and the cancellation does not succeed; the
    order stays [pending]. *)
Lemma cancel_pending_can_fail :
  option_map order_state (select_order (db Scenario.world1) 0 "u-1") = Some pending
  /\ fst Scenario.refused_update = failure 500 "Failed to cancel order"
  /\ success (fst Scenario.refused_update) = false
  /\ option_map order_state (orders (db (snd Scenario.refused_update)) !! 0%nat)
     = Some pending.
Proof. vm_compute. repeat split; reflexivity. Qed.

(** *** Reorder *)

(** Reorder is [createOrder] on the prior order's product ids and
    quantities: no price is carried over. *)
Lemma reorder_recreates (e : env) (userId : string) (id : nat) (body : reorder_body)
  (w : world) (o : order) :
  fetchError (fault e) = false ->
  select_order (db w) id userId = Some o ->
  reorder e userId id body w
  = createOrder e userId (newOrderData o (items_of (db w) id) body)
      (logged (SelectOrder id) w)
  /\ map req_product_id (items (newOrderData o (items_of (db w) id) body))
     = map item_product_id (items_of (db w) id)
  /\ map req_quantity_litres (items (newOrderData o (items_of (db w) id) body))
     = map quantity_litres (items_of (db w) id).
Proof.
  intros HfE Hsel. unfold reorder. cbn [logged db]. rewrite HfE, Hsel.
  split; [reflexivity |]. unfold newOrderData. cbn [items].
  rewrite !map_map. split; reflexivity.
Qed.

(** A supplied coordinate other than zero overrides the original one. *)
Lemma or_number_supplied (q original : Q) :
  ~ (q == 0)%Q -> or_number (Some q) original = q.
Proof.
  intros Hq. unfold or_number.
  destruct (Qeq_bool q 0) eqn:Heq; [| reflexivity].
  apply Qeq_bool_iff in Heq. contradiction.
Qed.

(** C9: the code at the failing input.  The prior order was delivered to
    latitude 0.3476, longitude 32.5825; the caller reorders to latitude
    0, longitude 32.5.  The new order keeps the original latitude and
    takes the new longitude. *)
Lemma reorder_ignores_zero_latitude :
  new_delivery_lat Scenario.to_the_equator = Some 0%Q
  /\ new_delivery_lng Scenario.to_the_equator = Some (325 # 10)
  /\ success (fst Scenario.equator_reorder) = true
  /\ option_map (fun v => (delivery_lat (view_order v), delivery_lng (view_order v)))
       (data (fst Scenario.equator_reorder))
     = Some (3476 # 10000, 325 # 10).
Proof. vm_compute. repeat split; reflexivity. Qed.

End OrderFacts.

(** ** More on the helpers *)

Module HelperFacts.
Import JS Helpers Schema HelpersMore.




(** X1.  The delivery fee never decreases with the distance, and from
    distance zero on it is at least the base fee. *)
Theorem calculateDeliveryFee_monotone (d1 d2 : Q) :
  (0 <= d1)%Q -> (d1 <= d2)%Q ->
  2000 <= calculateDeliveryFee d1 /\ calculateDeliveryFee d1 <= calculateDeliveryFee d2.
Proof.
  intros Hpos Hle. unfold calculateDeliveryFee, baseFee, perKmFee.
  pose proof (Qceiling_resp_le _ _ Hle) as Hmono.
  pose proof (Qceiling_resp_le _ _ Hpos) as Hzero.
  change (Qceiling 0) with 0 in Hzero. lia.
Qed.

Lemma calculateDeliveryFee_monotone_witness :
  2000 <= calculateDeliveryFee (1 # 2)
  /\ calculateDeliveryFee (1 # 2) <= calculateDeliveryFee (5 # 2).
Proof. apply calculateDeliveryFee_monotone; discriminate. Defined.




(** X3.  Whenever [Math.random] answers in [0, 1), a rider is assigned:
    the result is one of the five demo riders, never [undefined], and
    exactly one draw is consumed. *)
Theorem generateRiderInfo_assigns (g : prng) :
  (0 <= draws g (pos g))%Q -> (draws g (pos g) < 1)%Q ->
  exists r,
    fst (generateRiderInfo g) = Some r
    /\ In r riders
    /\ pos (snd (generateRiderInfo g)) = S (pos g).
Proof.
  intros Hlo Hhi. unfold generateRiderInfo, bind, Math_random, ret.
  cbn [fst snd pos draws].
  change (inject_Z (Z.of_nat (length riders))) with 5%Q.
  set (r := draws g (pos g)) in *.
  assert (0 <= Qfloor (r * 5) < 5) as [Hge Hlt].
  { split.
    - change 0 with (Qfloor 0). apply Qfloor_resp_le.
      apply Qmult_le_0_compat; [exact Hlo | discriminate].
    - rewrite Zlt_Qlt. eapply Qle_lt_trans; [apply Qfloor_le |].
      change (inject_Z 5) with (1 * 5)%Q. apply Qmult_lt_r; [reflexivity | exact Hhi]. }
  destruct (nth_error riders (Z.to_nat (Qfloor (r * 5)))) as [rd |] eqn:Hnth.
  - exists rd. split; [reflexivity |]. split; [| reflexivity].
    eapply nth_error_In; eauto.
  - exfalso. apply nth_error_None in Hnth.
    change (length riders) with 5%nat in Hnth. lia.
Qed.

Lemma generateRiderInfo_assigns_witness :
  exists r, fst (generateRiderInfo (Scenario.constant_source (99 # 100))) = Some r
            /\ In r riders
            /\ pos (snd (generateRiderInfo (Scenario.constant_source (99 # 100)))) = 1%nat.
Proof. apply generateRiderInfo_assigns; [discriminate | reflexivity]. Defined.

Lemma strip_angles_clean (s : string) :
  Forall (fun c => is_angle c = false) (list_ascii_of_string (strip_angles s)).
Proof.
  induction s as [| c s IH]; simpl; [constructor |].
  destruct (is_angle c) eqn:Hc; [exact IH |]. simpl. now constructor.
Qed.

Lemma strip_angles_length (s : string) :
  (String.length (strip_angles s) <= String.length s)%nat.
Proof.
  induction s as [| c s IH]; simpl; [lia |].
  destruct (is_angle c); simpl; lia.
Qed.

Lemma trim_start_length (l : list ascii) : (length (trim_start l) <= length l)%nat.
Proof.
  induction l as [| c l IH]; simpl; [lia |].
  destruct (is_space c); simpl; lia.
Qed.

Lemma string_length_list (l : list ascii) :
  String.length (string_of_list_ascii l) = length l.
Proof. induction l; simpl; congruence. Qed.

Lemma list_length_string (s : string) :
  length (list_ascii_of_string s) = String.length s.
Proof. induction s; simpl; congruence. Qed.

(** X4.  What [sanitizeInput] returns holds neither [<] nor [>], and is
    never longer than what it was given. *)
Theorem sanitizeInput_clean (input : string) :
  Forall (fun c => c <> "<"%char /\ c <> ">"%char)
    (list_ascii_of_string (sanitizeInput input))
  /\ (String.length (sanitizeInput input) <= String.length input)%nat.
Proof.
  unfold sanitizeInput. split.
  - eapply List.Forall_impl; [| apply strip_angles_clean].
    intros c Hc. unfold is_angle in Hc. apply orb_false_iff in Hc as [H1 H2].
    split; intros ->; discriminate.
  - etransitivity; [apply strip_angles_length |].
    unfold trim. rewrite string_length_list, length_rev.
    etransitivity; [apply trim_start_length |].
    rewrite length_rev.
    etransitivity; [apply trim_start_length |].
    now rewrite list_length_string.
Qed.

End HelperFacts.

(** ** More on the recommendation engine *)

Module ScoringFacts.
Import JS Http Schema Recommend Spec JSFacts RecommendFacts Benefits.

(** *** Sorting with a comparator that decides an order *)

Section SortedInsert.
Context {A : Type} (cmp : A -> A -> Rand Q) (R : A -> A -> Prop).
Hypothesis cmp_neg : forall x y g, (fst (cmp x y g) < 0)%Q -> R x y.
Hypothesis cmp_nonneg : forall x y g, (0 <= fst (cmp x y g))%Q -> R y x.

Lemma sort_insert_hd (x y : A) (l : list A) (g : prng) :
  HdRel R y l -> R y x -> HdRel R y (fst (sort_insert cmp x l g)).
Proof.
  intros Hhd Hyx. destruct l as [| z rest]; simpl.
  - now constructor.
  - unfold bind. destruct (cmp x z g) as [c g1].
    destruct (Qlt_le_dec c 0).
    + now constructor.
    + destruct (sort_insert cmp x rest g1) as [r g2]. simpl.
      constructor. now inversion Hhd.
Qed.

Lemma sort_insert_sorted (x : A) (l : list A) (g : prng) :
  Sorted R l -> Sorted R (fst (sort_insert cmp x l g)).
Proof.
  revert g. induction l as [| y rest IH]; intros g Hs; simpl.
  - repeat constructor.
  - unfold bind. pose proof (cmp_neg x y g) as Hneg.
    pose proof (cmp_nonneg x y g) as Hpos.
    destruct (cmp x y g) as [c g1]. simpl in Hneg, Hpos.
    destruct (Qlt_le_dec c 0) as [Hlt | Hge]; simpl.
    + constructor; [exact Hs | constructor; auto].
    + inversion Hs as [| ? ? Hrest Hhd]; subst.
      pose proof (IH g1 Hrest) as Hsorted.
      pose proof (sort_insert_hd x y rest g1 Hhd (Hpos Hge)) as Hhead.
      destruct (sort_insert cmp x rest g1) as [r g2]. simpl in *.
      now constructor.
Qed.

Lemma sort_from_sorted (todo sorted : list A) (g : prng) :
  Sorted R sorted -> Sorted R (fst (sort_from cmp sorted todo g)).
Proof.
  revert sorted g. induction todo as [| x todo IH]; intros sorted g Hs; simpl.
  - exact Hs.
  - unfold bind. pose proof (sort_insert_sorted x sorted g Hs) as Hins.
    destruct (sort_insert cmp x sorted g) as [s g1]. simpl in Hins.
    now apply IH.
Qed.

Lemma Array_sort_sorted (l : list A) (g : prng) : Sorted R (fst (Array_sort cmp l g)).
Proof. apply sort_from_sorted. constructor. Qed.

End SortedInsert.

(** *** The score *)

Lemma fold_score_ingredients (rec avoid : gset string) (l : list string) (t : tally) :
  matchedIngredients (fold_left (score_ingredient rec avoid) l t)
  = (matchedIngredients t ++ List.filter (fun i => has rec (toLowerCase i)) l)%list
  /\ score (fold_left (score_ingredient rec avoid) l t)
     = score t
       + 5 * Z.of_nat (length (List.filter (fun i => has rec (toLowerCase i)) l))
       - 10 * Z.of_nat (length (List.filter (fun i => has avoid (toLowerCase i)) l)).
Proof.
  revert t. induction l as [| i l IH]; intros t; simpl.
  - rewrite app_nil_r. split; [reflexivity | lia].
  - destruct (IH (score_ingredient rec avoid t i)) as [Hm Hs].
    rewrite Hm, Hs. unfold score_ingredient.
    destruct (has avoid (toLowerCase i)), (has rec (toLowerCase i)); simpl;
      rewrite <- ?app_assoc; simpl; split; try reflexivity; lia.
Qed.

(** X5.  The score of a product is five points for every ingredient that
    is recommended, minus ten for every ingredient that is avoided, plus
    three for every overlapping (health benefit, symptom) pair; an
    ingredient listed twice counts twice.  The matched ingredients are
    the recommended ones, in the product's order and spelling. *)
Theorem score_formula (rec avoid : gset string) (symptoms : list string) (p : product) :
  matchedIngredients (score_product rec avoid symptoms p)
  = List.filter (fun i => has rec (toLowerCase i)) (array_elements (ingredients p))
  /\ score (score_product rec avoid symptoms p)
     = 5 * Z.of_nat (length (List.filter (fun i => has rec (toLowerCase i))
                               (array_elements (ingredients p))))
       - 10 * Z.of_nat (length (List.filter (fun i => has avoid (toLowerCase i))
                                  (array_elements (ingredients p))))
       + 3 * Z.of_nat (overlap_count symptoms (array_elements (health_benefits p))).
Proof.
  unfold score_product. cbn [score matchedIngredients].
  destruct (fold_score_ingredients rec avoid (array_elements (ingredients p)) tally0)
    as [Hm Hs].
  rewrite fold_score_benefit, Hm, Hs. split; [reflexivity |]. simpl. lia.
Qed.

(** *** The ranking *)

Lemma ranking_sorted (l : list recommendation) (g : prng) :
  StronglySorted (fun a b => recommendation_score b <= recommendation_score a)
    (fst (Array_sort by_score_desc l g)).
Proof.
  apply Sorted_StronglySorted.
  - intros a b c Hab Hbc. lia.
  - apply Array_sort_sorted.
    + intros x y g0. unfold by_score_desc, ret. simpl. intros H.
      change 0%Q with (inject_Z 0) in H. rewrite <- Zlt_Qlt in H. lia.
    + intros x y g0. unfold by_score_desc, ret. simpl. intros H.
      change 0%Q with (inject_Z 0) in H. rewrite <- Zle_Qle in H. lia.
Qed.

Lemma StronglySorted_split {A} (R : A -> A -> Prop) (n : nat) (l : list A) :
  StronglySorted R l ->
  StronglySorted R (firstn n l)
  /\ Forall (fun q => Forall (fun r => R r q) (firstn n l)) (skipn n l).
Proof.
  revert n. induction l as [| x l IH]; intros n Hs.
  - rewrite firstn_nil, skipn_nil. split; constructor.
  - destruct n as [| n]; simpl.
    + split; [constructor |]. apply List.Forall_forall. intros q _. constructor.
    + inversion Hs as [| ? ? Hl Hx]; subst.
      destruct (IH n Hl) as [Hfirst Hrest]. split.
      * constructor; [exact Hfirst |].
        apply List.Forall_forall. intros y Hy.
        rewrite List.Forall_forall in Hx. apply Hx.
        rewrite <- (firstn_skipn n l). apply in_or_app. now left.
      * apply List.Forall_forall. intros q Hq. constructor.
        -- rewrite List.Forall_forall in Hx. apply Hx.
           rewrite <- (firstn_skipn n l). apply in_or_app. now right.
        -- rewrite List.Forall_forall in Hrest. now apply Hrest.
Qed.

Lemma scored_path_inv (db : catalog) (body : request) (g : prng) :
  message (fst (getRecommendations db body g)) = "Recommendations generated successfully" ->
  exists syms rec avoid0 scoredProducts,
    symptoms body = JArr syms
    /\ collect (select_symptom_in (symptoms_ingredients db) (map toLowerCase syms)) ∅ ∅
       = Some (rec, avoid0)
    /\ map_throwing (scored rec (add_lowered (allergies body) avoid0) syms)
         (select_available (products db)) = Some scoredProducts
    /\ surfaced (fst (getRecommendations db body g))
       = slice0 3 (fst (Array_sort by_score_desc
                          (List.filter qualifies scoredProducts) g)).
Proof.
  unfold getRecommendations.
  destruct (symptoms body) as [| b | q | s | [| s0 syms] |]; try discriminate.
  destruct (symptomError db); [discriminate |].
  destruct (collect _ ∅ ∅) as [[rec avoid0] |] eqn:Hcol; [| discriminate].
  destruct (productsError db); [discriminate |].
  destruct (map_throwing _ _) as [scoredProducts |] eqn:Hmap; [| discriminate].
  unfold bind. destruct (Array_sort by_score_desc _ g) as [ranked g'] eqn:Hsort.
  destruct (Nat.eqb _ 0).
  - destruct (Array_sort coin_flip _ g') as [shuffled g'']. discriminate.
  - intros _. exists (s0 :: syms), rec, avoid0, scoredProducts.
    repeat split; try assumption. now rewrite Hsort.
Qed.

(** X6.  On the scored path the caller sees the best three: the list is
    in descending order of score, every entry has a positive score, and
    every qualifying product that is left out scores no more than each
    entry shown; products are left out only when three are shown. *)
Theorem ranking_is_top_three (db : catalog) (body : request) (g : prng) :
  message (fst (getRecommendations db body g)) = "Recommendations generated successfully" ->
  StronglySorted (fun a b => recommendation_score b <= recommendation_score a)
    (surfaced (fst (getRecommendations db body g)))
  /\ Forall (fun r => 0 < recommendation_score r)
       (surfaced (fst (getRecommendations db body g)))
  /\ exists syms qualifying rest,
       symptoms body = JArr syms
       /\ scored_pass db syms (allergies body) = Some qualifying
       /\ Permutation (surfaced (fst (getRecommendations db body g)) ++ rest) qualifying
       /\ (rest <> [] -> length (surfaced (fst (getRecommendations db body g))) = 3%nat)
       /\ Forall (fun q =>
                    Forall (fun r => recommendation_score q <= recommendation_score r)
                      (surfaced (fst (getRecommendations db body g))))
            rest.
Proof.
  intros Hmsg.
  destruct (scored_path_inv db body g Hmsg)
    as (syms & rec & avoid0 & scoredProducts & Hsym & Hcol & Hmap & ->).
  pose proof (ranking_sorted (List.filter qualifies scoredProducts) g) as Hsorted.
  pose proof (Array_sort_perm by_score_desc (List.filter qualifies scoredProducts) g)
    as Hperm.
  set (ranked := fst (Array_sort by_score_desc (List.filter qualifies scoredProducts) g))
    in *.
  unfold slice0.
  destruct (StronglySorted_split _ 3 ranked Hsorted) as [Htop Hrest].
  split; [exact Htop |]. split.
  - apply List.Forall_forall. intros r Hr.
    assert (In r ranked) as Hin
      by (rewrite <- (firstn_skipn 3 ranked); apply in_or_app; now left).
    apply (Permutation_in _ Hperm), List.filter_In in Hin as [_ Hq].
    unfold qualifies in Hq. apply andb_true_iff in Hq as [_ Hq]. lia.
  - exists syms, (List.filter qualifies scoredProducts), (skipn 3 ranked).
    split; [exact Hsym |]. split.
    { unfold scored_pass. now rewrite Hcol, Hmap. }
    split; [now rewrite firstn_skipn |]. split; [| exact Hrest].
    intros Hmore. destruct ranked as [| a [| b [| c l]]]; simpl in *; congruence.
Qed.

Lemma ranking_is_top_three_witness :
  Forall (fun r => 0 < recommendation_score r)
    (surfaced (fst (getRecommendations
                      (Scenario.shelf
                         [Scenario.mango_tango; Scenario.green_revitalizer;
                          Scenario.citrus_sunrise; Scenario.berry_blast]
                         [Scenario.flu])
                      (Scenario.ask ["flu"] [])
                      (Scenario.constant_source (1 # 4))))).
Proof.
  refine (proj1 (proj2 (ranking_is_top_three _ _ _ _))).
  vm_compute. reflexivity.
Defined.

(** X7.  Every product the caller is recommended, on either path, is a
    row of the products table that is marked available. *)
Theorem surfaced_products_available (db : catalog) (body : request) (g : prng) :
  Forall (fun r => In (rec_product r) (products db)
                   /\ is_available (rec_product r) = true)
    (surfaced (fst (getRecommendations db body g))).
Proof.
  destruct (getRecommendations_paths db body)
    as [Herr | (syms & rec & avoid0 & scoredProducts & ranked
                & Hsym & Hcol & Hmap & Hperm & [[Hne Hrun] | [Hnil Hrun]])].
  - rewrite (proj1 (Herr g)). constructor.
  - rewrite (proj1 (Hrun g)). apply List.Forall_forall. intros r Hr.
    apply slice0_In in Hr. apply (Permutation_in _ Hperm) in Hr.
    apply List.filter_In in Hr as [Hin _].
    destruct (map_throwing_In _ _ _ _ Hmap Hin) as (p & Hp & Hscored).
    apply scored_flag in Hscored as [-> _].
    unfold select_available in Hp. now apply List.filter_In in Hp.
  - rewrite (proj1 (Hrun g)). apply List.Forall_forall. intros r Hr.
    apply in_map_iff in Hr as (p & <- & Hp).
    apply slice0_In in Hp.
    apply (Permutation_in _ (Array_sort_perm coin_flip _ g)) in Hp.
    apply List.filter_In in Hp as [Hp _]. simpl.
    unfold select_available in Hp. now apply List.filter_In in Hp.
Qed.

Lemma add_lowered_ext (a1 a2 : list string) (set : gset string) :
  (forall x, In x (map toLowerCase a1) <-> In x (map toLowerCase a2)) ->
  add_lowered a1 set = add_lowered a2 set.
Proof.
  intros Hsame. apply set_eq. intros x. rewrite !elem_of_add_lowered.
  split; intros [H | (y & Hy & ->)]; auto; right.
  - assert (In (toLowerCase y) (map toLowerCase a2)) as Hin
      by (apply Hsame; now apply in_map).
    apply in_map_iff in Hin as (z & Hz & Hin). eauto.
  - assert (In (toLowerCase y) (map toLowerCase a1)) as Hin
      by (apply Hsame; now apply in_map).
    apply in_map_iff in Hin as (z & Hz & Hin). eauto.
Qed.

(** X8.  The allergies count only up to letter case, order and
    repetition: two requests whose allergies lower-case to the same
    words, with the same symptoms against the same catalog and the same
    random draws, are answered with the same recommendations, status and
    message. *)
Theorem allergies_up_to_case (db : catalog) (syms : jsonb) (a1 a2 : list string)
  (g : prng) :
  (forall x, In x (map toLowerCase a1) <-> In x (map toLowerCase a2)) ->
  surfaced (fst (getRecommendations db {| symptoms := syms; allergies := a1 |} g))
  = surfaced (fst (getRecommendations db {| symptoms := syms; allergies := a2 |} g))
  /\ status (fst (getRecommendations db {| symptoms := syms; allergies := a1 |} g))
     = status (fst (getRecommendations db {| symptoms := syms; allergies := a2 |} g))
  /\ message (fst (getRecommendations db {| symptoms := syms; allergies := a1 |} g))
     = message (fst (getRecommendations db {| symptoms := syms; allergies := a2 |} g)).
Proof.
  intros Hsame. unfold getRecommendations. cbn [symptoms allergies].
  destruct syms as [| b | q | s | [| s0 l] |]; try (repeat split; reflexivity).
  destruct (symptomError db); [repeat split; reflexivity |].
  destruct (collect _ ∅ ∅) as [[rec avoid0] |]; [| repeat split; reflexivity].
  rewrite (add_lowered_ext a1 a2 avoid0 Hsame).
  destruct (productsError db); [repeat split; reflexivity |].
  destruct (map_throwing _ _) as [scoredProducts |]; [| repeat split; reflexivity].
  unfold bind. destruct (Array_sort by_score_desc _ g) as [ranked g'].
  destruct (Nat.eqb _ 0).
  - destruct (Array_sort coin_flip _ g') as [shuffled g'']. repeat split; reflexivity.
  - repeat split; reflexivity.
Qed.

Lemma allergies_up_to_case_witness :
  surfaced (fst (getRecommendations
                   (Scenario.shelf [Scenario.mango_tango; Scenario.citrus_sunrise]
                      [Scenario.flu])
                   {| symptoms := JArr ["flu"]; allergies := ["Ginger"; "GINGER"] |}
                   (Scenario.constant_source (1 # 4))))
  = surfaced (fst (getRecommendations
                     (Scenario.shelf [Scenario.mango_tango; Scenario.citrus_sunrise]
                        [Scenario.flu])
                     {| symptoms := JArr ["flu"]; allergies := ["ginger"] |}
                     (Scenario.constant_source (1 # 4)))).
Proof.
  refine (proj1 (allergies_up_to_case _ _ _ _ _ _)).
  intros x. simpl. tauto.
Defined.

(** X9.  When [generateRecommendationReasons] returns, it gives one or
    two reasons, never none; and it gives the stock reason alone exactly
    when no ingredient matched and no health benefit overlaps a
    symptom. *)
Theorem reasons_never_empty (matched : list string) (healthBenefits : jsonb)
  (symptoms reasons : list string) :
  generateRecommendationReasons matched healthBenefits symptoms = Some reasons ->
  (1 <= length reasons <= 2)%nat
  /\ (reasons = ["Nutritious and refreshing choice"]
      <-> matched = []
          /\ List.filter (fun benefit => existsb (overlaps benefit) symptoms)
               (array_elements healthBenefits) = []).
Proof.
  unfold generateRecommendationReasons.
  destruct healthBenefits as [| b | q | s | benefits |]; simpl.
  - discriminate.
  - destruct matched; intros [= <-]; simpl; (split; [lia |]);
      split; intros H; try discriminate; auto; destruct H; discriminate.
  - destruct matched; intros [= <-]; simpl; (split; [lia |]);
      split; intros H; try discriminate; auto; destruct H; discriminate.
  - destruct (Nat.ltb 0 (String.length s)); [discriminate |].
    destruct matched; intros [= <-]; simpl; (split; [lia |]);
      split; intros H; try discriminate; auto; destruct H; discriminate.
  - destruct (List.filter _ benefits) as [| b0 relevant] eqn:Hrel.
    + rewrite andb_false_r.
      destruct matched; intros [= <-]; simpl; (split; [lia |]);
        split; intros H; try discriminate; auto; destruct H; discriminate.
    + destruct benefits as [| b1 benefits]; [discriminate |].
      destruct matched; intros [= <-]; simpl; (split; [lia |]);
        split; intros H; try discriminate; destruct H; discriminate.
  - destruct matched; intros [= <-]; simpl; (split; [lia |]);
      split; intros H; try discriminate; auto; destruct H; discriminate.
Qed.

Lemma reasons_never_empty_witness :
  exists reasons,
    generateRecommendationReasons ["orange"; "ginger"] (JArr ["flu relief"; "energy"])
      ["flu"] = Some reasons
    /\ (1 <= length reasons <= 2)%nat.
Proof.
  eexists. split; [reflexivity |].
  refine (proj1 (reasons_never_empty ["orange"; "ginger"] (JArr ["flu relief"; "energy"])
                   ["flu"] _ _)).
  reflexivity.
Defined.

(** X10.  The request is refused with status 400 exactly when [symptoms]
    is not an array with at least one element, whatever the store holds;
    every other answer has status 200 or 500, and 200 exactly on
    success. *)
Theorem bad_request_iff (db : catalog) (body : request) (g : prng) :
  (status (fst (getRecommendations db body g)) = 400%nat
   <-> forall l, symptoms body = JArr l -> l = [])
  /\ (status (fst (getRecommendations db body g)) = 200%nat
      <-> success (fst (getRecommendations db body g)) = true)
  /\ (status (fst (getRecommendations db body g)) = 400%nat
      \/ status (fst (getRecommendations db body g)) = 500%nat
      \/ status (fst (getRecommendations db body g)) = 200%nat).
Proof.
  unfold getRecommendations.
  destruct (symptoms body) as [| b | q | s | [| s0 l] |];
    try (simpl; repeat split; auto; congruence).
  assert (~ (forall l0 : list string, JArr (s0 :: l) = JArr l0 -> l0 = [])) as Hno.
  { intros H. specialize (H _ eq_refl). discriminate. }
  destruct (symptomError db);
    [simpl; repeat split; auto; try discriminate; try tauto |].
  destruct (collect _ ∅ ∅) as [[rec avoid0] |];
    [| simpl; repeat split; auto; try discriminate; try tauto].
  destruct (productsError db);
    [simpl; repeat split; auto; try discriminate; try tauto |].
  destruct (map_throwing _ _) as [scoredProducts |];
    [| simpl; repeat split; auto; try discriminate; try tauto].
  unfold bind. destruct (Array_sort by_score_desc _ g) as [ranked g'].
  destruct (Nat.eqb _ 0).
  - destruct (Array_sort coin_flip _ g') as [shuffled g''].
    simpl; repeat split; auto; try discriminate; try tauto.
  - simpl; repeat split; auto; try discriminate; try tauto.
Qed.

(** *** The list of health benefits *)

Lemma set_add_In (set : list string) (x y : string) :
  In y (set_add set x) <-> In y set \/ y = x.
Proof.
  unfold set_add. destruct (existsb (String.eqb x) set) eqn:Hex.
  - apply existsb_exists in Hex as (z & Hz & Heq). apply String.eqb_eq in Heq. subst z.
    split; [now left | intros [H | ->]; assumption].
  - rewrite in_app_iff. simpl.
    split; intros [H | H];
      [now left | destruct H as [<- | []]; now right | now left | subst; right; now left].
Qed.

Lemma set_add_NoDup (set : list string) (x : string) :
  List.NoDup set -> List.NoDup (set_add set x).
Proof.
  intros Hnd. unfold set_add. destruct (existsb (String.eqb x) set) eqn:Hex; [exact Hnd |].
  apply List.NoDup_app; [exact Hnd | repeat constructor; intros [] |].
  intros y Hy [Heq | []]. subst y.
  assert (existsb (String.eqb x) set = true) as Habs; [| congruence].
  apply existsb_exists. exists x. split; [exact Hy | apply String.eqb_refl].
Qed.

Lemma fold_set_add (l set : list string) :
  List.NoDup set ->
  List.NoDup (fold_left set_add l set)
  /\ forall y, In y (fold_left set_add l set) <-> In y set \/ In y l.
Proof.
  revert set. induction l as [| x l IH]; intros set Hnd; simpl.
  - split; [exact Hnd | intros y; tauto].
  - destruct (IH (set_add set x) (set_add_NoDup set x Hnd)) as [Hnd' Hin].
    split; [exact Hnd' |]. intros y. rewrite Hin, set_add_In.
    split; intros H; repeat destruct H as [H | H]; subst; auto.
Qed.

Lemma collect_benefits_spec (ps : list product) :
  List.NoDup (collect_benefits ps)
  /\ forall y, In y (collect_benefits ps)
               <-> exists p, In p ps /\ In y (array_elements (health_benefits p)).
Proof.
  unfold collect_benefits.
  assert (forall set, List.NoDup set ->
            List.NoDup (fold_left (fun set p =>
                                fold_left set_add (array_elements (health_benefits p)) set)
                     ps set)
            /\ forall y,
                 In y (fold_left (fun set p =>
                                    fold_left set_add
                                      (array_elements (health_benefits p)) set)
                         ps set)
                 <-> In y set
                     \/ exists p, In p ps /\ In y (array_elements (health_benefits p)))
    as Hgen.
  { induction ps as [| p ps IH]; intros set Hnd; simpl.
    - split; [exact Hnd |]. intros y. split; [now left | intros [H | (p & [] & _)]; exact H].
    - destruct (fold_set_add (array_elements (health_benefits p)) set Hnd) as [Hnd1 Hin1].
      destruct (IH _ Hnd1) as [Hnd2 Hin2]. split; [exact Hnd2 |].
      intros y. rewrite Hin2, Hin1. split.
      + intros [[H | H] | (q & Hq & Hy)]; eauto.
      + intros [H | (q & [<- | Hq] & Hy)]; eauto. }
  destruct (Hgen [] (List.NoDup_nil _)) as [Hnd Hin]. split; [exact Hnd |].
  intros y. rewrite Hin. split; [intros [[] | H]; exact H | now right].
Qed.

Lemma Sorted_strict {A} (R : A -> A -> Prop) (l : list A) :
  Sorted R l -> List.NoDup l -> Sorted (fun a b => R a b /\ a <> b) l.
Proof.
  induction 1 as [| a l Hs IH Hhd]; intros Hnd; constructor.
  - apply IH. now inversion Hnd.
  - destruct Hhd as [| b l Hab]; constructor. split; [exact Hab |].
    intros ->. inversion Hnd as [| ? ? Hnotin _]; subst. apply Hnotin. now left.
Qed.

(** X11.  When the products query answers, [getHealthBenefits] returns
    each health benefit that an available product lists in an array,
    once, in strictly ascending order of the strings. *)
Theorem health_benefits_sorted_unique (db : catalog) :
  productsError db = false ->
  exists benefits,
    data (getHealthBenefits db) = Some benefits
    /\ List.NoDup benefits
    /\ Sorted (fun a b => String.compare a b = Lt) benefits
    /\ forall x, In x benefits
                 <-> exists p, In p (products db) /\ is_available p = true
                               /\ In x (array_elements (health_benefits p)).
Proof.
  intros HpE. unfold getHealthBenefits. rewrite HpE. eexists. split; [reflexivity |].
  set (g0 := {| draws := fun _ => 0%Q; pos := 0 |}).
  destruct (collect_benefits_spec (select_available (products db))) as [Hnd Hin].
  pose proof (Array_sort_perm default_compare
                (collect_benefits (select_available (products db))) g0) as Hperm.
  assert (List.NoDup (fst (Array_sort default_compare
                        (collect_benefits (select_available (products db))) g0)))
    as Hnd'.
  { eapply Permutation_NoDup; [symmetry; exact Hperm | exact Hnd]. }
  split; [exact Hnd' |]. split.
  - assert (Sorted (fun a b => String.compare a b <> Gt /\ a <> b)
              (fst (Array_sort default_compare
                      (collect_benefits (select_available (products db))) g0))) as Hs;
      [apply Sorted_strict; [| exact Hnd'] | ].
    2: { clear -Hs. induction Hs as [| a l Hs IH Hhd]; constructor; [exact IH |].
         destruct Hhd as [| b l [Hle Hne]]; constructor.
         destruct (String.compare a b) eqn:Hc; [| reflexivity | congruence].
         apply String.compare_eq_iff in Hc. contradiction. }
    apply (Array_sort_sorted default_compare (fun a b => String.compare a b <> Gt)).
    + intros x y g. unfold default_compare, ret. simpl.
      destruct (String.compare x y); intros H; try discriminate; exfalso;
        revert H; apply Qle_not_lt; discriminate.
    + intros x y g. unfold default_compare, ret. simpl.
      rewrite (String.compare_antisym y x).
      destruct (String.compare x y); simpl; intros H; try discriminate.
      exfalso. revert H. apply Qlt_not_le. reflexivity.
  - intros x. split.
    + intros Hx. apply (Permutation_in _ Hperm), Hin in Hx as (p & Hp & Hx).
      unfold select_available in Hp. apply List.filter_In in Hp as [Hp Hav]. eauto.
    + intros (p & Hp & Hav & Hx).
      apply (Permutation_in _ (Permutation_sym Hperm)), Hin.
      exists p. split; [| exact Hx].
      unfold select_available. apply List.filter_In. auto.
Qed.

Lemma health_benefits_sorted_unique_witness :
  exists benefits,
    data (getHealthBenefits (Scenario.shelf [Scenario.mango_tango; Scenario.citrus_sunrise] []))
    = Some benefits
    /\ List.NoDup benefits.
Proof.
  destruct (health_benefits_sorted_unique
              (Scenario.shelf [Scenario.mango_tango; Scenario.citrus_sunrise] []) eq_refl)
    as (benefits & Hdata & Hnd & _).
  exists benefits. split; [exact Hdata | exact Hnd].
Defined.

End ScoringFacts.

(** ** More on the order pipeline *)

Module PipelineFacts.
Import JS Http Helpers Schema Orders Spec OrderFacts HelpersMore Tracking HelperFacts.

(** *** Pricing stops at the first product that cannot be selected *)

Lemma price_items_all (e : env) (items : list item_request) :
  Forall (fun item => is_Some (select_product e (req_product_id item))) items ->
  forall (total0 : number) (acc : list priced_item) (w : world),
  exists total its w1, price_items e items total0 acc w = (inl (total, its), w1).
Proof.
  induction 1 as [| item rest [p Hp] _ IH]; intros total0 acc w; simpl.
  - eauto.
  - rewrite Hp. apply IH.
Qed.

Lemma price_items_stops (e : env) (before : list item_request) (item : item_request)
  (after : list item_request) :
  Forall (fun item => is_Some (select_product e (req_product_id item))) before ->
  select_product e (req_product_id item) = None ->
  forall (total0 : number) (acc : list priced_item) (w : world),
  exists w1,
    price_items e (before ++ item :: after) total0 acc w = (inr (req_product_id item), w1)
    /\ db w1 = db w /\ rng w1 = rng w
    /\ log w1 = (log w ++ map (fun it => SelectProduct (req_product_id it))
                            (before ++ [item]))%list.
Proof.
  intros Hbefore Hnone.
  induction Hbefore as [| b rest [p Hp] _ IH]; intros total0 acc w; simpl.
  - rewrite Hnone. eexists. repeat split.
  - rewrite Hp.
    destruct (IH (num_add total0 (line_amount p (req_quantity_litres b)))
                (acc ++ [ {| pi_product_id := req_product_id b;
                             pi_quantity_litres := to_number (req_quantity_litres b);
                             pi_unit_price := to_number (price_per_litre p);
                             pi_subtotal := line_amount p (req_quantity_litres b) |} ])%list
                (logged (SelectProduct (req_product_id b)) w))
      as (w1 & Heq & Hdb & Hrng & Hlog).
    exists w1. split; [exact Heq |]. split; [exact Hdb |]. split; [exact Hrng |].
    rewrite Hlog. simpl. now rewrite <- app_assoc.
Qed.

Lemma priced_selectable (e : env) (items : list item_request) (rows : list order_item) :
  Forall2 (priced_from e) items rows ->
  Forall (fun item => is_Some (select_product e (req_product_id item))) items.
Proof.
  induction 1 as [| item row items rows (p & Hp & _) _ IH]; constructor; eauto.
Qed.

(** *** What a successful run does, in full *)

Lemma createOrder_success_inv (e : env) (userId : string) (body : create_body) (w : world) :
  success (fst (createOrder e userId body w)) = true ->
  exists outlet new rider,
    outletError (fault e) = false
    /\ get_nearest_outlet e (body_delivery_lat body) (body_delivery_lng body) = Some outlet
    /\ orderError (fault e) = false
    /\ itemsError (fault e) = false
    /\ (forall id, Forall2 (priced_from e) (items body) (map (with_order_id e id) new))
    /\ db (snd (createOrder e userId body w))
       = insert_items (map (with_order_id e (fresh (dom (orders (db w))))) new)
           {| orders :=
                <[fresh (dom (orders (db w))) :=
                    new_order userId body outlet
                      (to_decimal e 2
                         (num_add (running_total (map pi_subtotal new))
                            (Number_of_Z (calculateDeliveryFee (distance_km outlet)))))
                      (calculateDeliveryFee (distance_km outlet))
                      (calculateEstimatedDeliveryTime (now e) (distance_km outlet))
                      rider]> (orders (db w));
              order_items := order_items (db w) |}
    /\ fst (createOrder e userId body w)
       = ok 201 "Order created successfully"
           {| view_id := fresh (dom (orders (db w)));
              view_order :=
                new_order userId body outlet
                  (to_decimal e 2
                     (num_add (running_total (map pi_subtotal new))
                        (Number_of_Z (calculateDeliveryFee (distance_km outlet)))))
                  (calculateDeliveryFee (distance_km outlet))
                  (calculateEstimatedDeliveryTime (now e) (distance_km outlet))
                  rider;
              joined :=
                if enrichError (fault e) then None
                else Some (map (join_product e)
                             (items_of (db (snd (createOrder e userId body w)))
                                (fresh (dom (orders (db w)))))) |}.
Proof.
  unfold createOrder.
  destruct (outletError (fault e)); [discriminate |].
  destruct (get_nearest_outlet e _ _) as [outlet |] eqn:Houtlet; [| discriminate].
  destruct (price_items e (items body) (Number_of_Z 0) [] _)
    as [[[total its] | missing] w1] eqn:Hprice;
    [| discriminate].
  apply price_items_spec in Hprice as (new & -> & -> & Hdb & _ & _ & Hpriced).
  simpl in Hdb.
  destruct (generateRiderInfo (rng w1)) as [rider g].
  destruct (orderError (fault e)); [discriminate |].
  unfold insert_order. cbn [logged with_db db].
  destruct (itemsError (fault e)).
  { destruct (deleteError (fault e)); discriminate. }
  intros _. rewrite Hdb.
  exists outlet, new, rider.
  cbn [fst snd db with_db logged app].
  repeat split; try assumption; try reflexivity.
  intros id. now apply priced_stored.
Qed.

(** X12.  [createOrder] succeeds exactly when the outlet lookup answers
    with an outlet, every requested product can be selected as an
    available product, and the two inserts go through.  Neither the
    distance to the outlet nor the outcome of the final re-fetch plays a
    part. *)
Theorem createOrder_succeeds_iff (e : env) (userId : string) (body : create_body)
  (w : world) :
  success (fst (createOrder e userId body w)) = true
  <-> outletError (fault e) = false
      /\ is_Some (get_nearest_outlet e (body_delivery_lat body) (body_delivery_lng body))
      /\ Forall (fun item => is_Some (select_product e (req_product_id item))) (items body)
      /\ orderError (fault e) = false
      /\ itemsError (fault e) = false.
Proof.
  split.
  - intros Hok.
    destruct (createOrder_success_inv e userId body w Hok)
      as (outlet & new & rider & HoE & Houtlet & HordE & HitE & Hpriced & _).
    repeat split; try assumption; eauto.
    exact (priced_selectable e _ _ (Hpriced 0%nat)).
  - intros (HoE & [outlet Houtlet] & Hall & HordE & HitE).
    unfold createOrder. rewrite HoE, Houtlet.
    destruct (price_items_all e (items body) Hall (Number_of_Z 0) [] (logged RpcNearestOutlet w))
      as (total & its & w1 & ->).
    destruct (generateRiderInfo (rng w1)) as [rider g].
    rewrite HordE. unfold insert_order. cbn [logged with_db db].
    rewrite HitE. reflexivity.
Qed.

Lemma createOrder_succeeds_iff_witness :
  success (fst (createOrder (Scenario.shop Cases.enrich_fails) "u-1" Scenario.basket
                  Scenario.world0)) = true.
Proof.
  apply createOrder_succeeds_iff. repeat split.
  - eexists. reflexivity.
  - repeat constructor; eexists; reflexivity.
Defined.

(** X13.  The pipeline stops at the first requested product that is
    missing or unavailable: the answer is 400 and names that product, the
    products after it are not looked up, no insert is issued and the
    store is as it was. *)
Theorem createOrder_missing_product (e : env) (userId : string) (body : create_body)
  (w : world) (outlet : nearest_outlet)
  (before : list item_request) (item : item_request) (after : list item_request) :
  outletError (fault e) = false ->
  get_nearest_outlet e (body_delivery_lat body) (body_delivery_lng body) = Some outlet ->
  items body = (before ++ item :: after)%list ->
  Forall (fun item => is_Some (select_product e (req_product_id item))) before ->
  select_product e (req_product_id item) = None ->
  fst (createOrder e userId body w)
  = failure 400 ("Product " +:+ req_product_id item +:+ " not found or unavailable")
  /\ db (snd (createOrder e userId body w)) = db w
  /\ log (snd (createOrder e userId body w))
     = (log w ++ RpcNearestOutlet
              :: map (fun it => SelectProduct (req_product_id it)) (before ++ [item]))%list.
Proof.
  intros HoE Houtlet Hitems Hbefore Hnone.
  unfold createOrder. rewrite HoE, Houtlet, Hitems.
  destruct (price_items_stops e before item after Hbefore Hnone (Number_of_Z 0) []
              (logged RpcNearestOutlet w)) as (w1 & -> & Hdb & _ & Hlog).
  cbn [fst snd]. split; [reflexivity |]. split; [exact Hdb |].
  rewrite Hlog. simpl. now rewrite <- app_assoc.
Qed.

Lemma createOrder_missing_product_witness :
  fst (createOrder Cases.shop_without_green "u-1" Scenario.basket Scenario.world0)
  = failure 400 "Product p-green not found or unavailable"
  /\ db (snd (createOrder Cases.shop_without_green "u-1" Scenario.basket Scenario.world0))
     = db Scenario.world0.
Proof.
  edestruct (createOrder_missing_product Cases.shop_without_green "u-1" Scenario.basket
               Scenario.world0 Scenario.kampala_central
               [ {| req_product_id := "p-mango"; req_quantity_litres := 1 # 2 |} ]
               {| req_product_id := "p-green"; req_quantity_litres := 1 |} [])
    as (Hresp & Hdb & _).
  - reflexivity.
  - reflexivity.
  - reflexivity.
  - repeat constructor. eexists. reflexivity.
  - reflexivity.
  - split; [exact Hresp | exact Hdb].
Defined.

(** *** What [createOrder] leaves alone *)

Lemma items_of_insert_other (s : store) (id id' : nat) (rows : list order_item) :
  id <> id' ->
  Forall (fun it => order_id it = id') rows ->
  items_of (insert_items rows s) id = items_of s id.
Proof.
  intros Hne Hrows. unfold items_of, insert_items. simpl.
  rewrite List.filter_app.
  assert (List.filter (fun it => Nat.eqb (order_id it) id) rows = []) as ->;
    [| apply app_nil_r].
  induction Hrows as [| it l Hit _ IHl]; simpl; [reflexivity |].
  rewrite Hit. destruct (Nat.eqb id' id) eqn:Heq; [| exact IHl].
  apply Nat.eqb_eq in Heq. congruence.
Qed.

Lemma items_of_delete_other (s : store) (id id' : nat) :
  id <> id' -> items_of (delete_order id' s) id = items_of s id.
Proof.
  intros Hne. unfold items_of, delete_order. simpl.
  induction (order_items s) as [| it l IH]; simpl; [reflexivity |].
  destruct (Nat.eqb (order_id it) id') eqn:H1; simpl.
  - destruct (Nat.eqb (order_id it) id) eqn:H2; [| exact IH].
    apply Nat.eqb_eq in H1, H2. congruence.
  - destruct (Nat.eqb (order_id it) id); [now rewrite IH | exact IH].
Qed.

Lemma delete_order_undoes_insert (row : order) (s : store) :
  referential s ->
  delete_order (fst (insert_order row s)) (snd (insert_order row s)) = s.
Proof.
  intros Href. unfold delete_order, insert_order. simpl.
  rewrite delete_insert_id by apply fresh_order_id.
  assert (List.filter (fun it => negb (Nat.eqb (order_id it) (fresh (dom (orders s)))))
            (order_items s) = order_items s) as ->; [| now destruct s].
  assert (forall l, (forall it, In it l -> In it (order_items s)) ->
                    List.filter
                      (fun it => negb (Nat.eqb (order_id it) (fresh (dom (orders s))))) l
                    = l) as Hall.
  { induction l as [| it l IHl]; intros Hl; simpl; [reflexivity |].
    assert (order_id it <> fresh (dom (orders s))) as Hne
      by (apply referential_fresh; [exact Href | apply Hl; now left]).
    apply Nat.eqb_neq in Hne. rewrite Hne. simpl. f_equal.
    apply IHl. intros it' Hit'. apply Hl. now right. }
  apply Hall. auto.
Qed.

Lemma createOrder_frame (e : env) (userId : string) (body : create_body)
  (w : world) (id : nat) (o : order) :
  orders (db w) !! id = Some o ->
  orders (db (snd (createOrder e userId body w))) !! id = Some o
  /\ items_of (db (snd (createOrder e userId body w))) id = items_of (db w) id.
Proof.
  intros Ho.
  assert (id <> fresh (dom (orders (db w)))) as Hne.
  { intros ->. rewrite fresh_order_id in Ho. discriminate. }
  unfold createOrder. cbn [logged db].
  destruct (if outletError (fault e) then None else _) as [outlet |]; [| now split].
  pose proof (price_items_db e (items body) (Number_of_Z 0) [] (logged RpcNearestOutlet w)) as Hdb.
  destruct (price_items e (items body) (Number_of_Z 0) [] _)
    as [[[total its] | missing] w1];
    simpl in Hdb; [| cbn [snd]; rewrite Hdb; now split].
  destruct (generateRiderInfo (rng w1)) as [rider g].
  destruct (orderError (fault e)); [cbn [snd logged db]; rewrite Hdb; now split |].
  cbn [logged db]. rewrite Hdb. unfold insert_order.
  destruct (itemsError (fault e)).
  - destruct (deleteError (fault e)); cbn [snd db with_db logged].
    + split; [cbn [orders]; rewrite lookup_insert_ne by congruence; exact Ho |].
      reflexivity.
    + split.
      * cbn [delete_order orders]. rewrite lookup_delete_ne by congruence.
        rewrite lookup_insert_ne by congruence. exact Ho.
      * rewrite items_of_delete_other by exact Hne. reflexivity.
  - cbn [snd db with_db logged]. split.
    + cbn [insert_items orders]. rewrite lookup_insert_ne by congruence. exact Ho.
    + rewrite (items_of_insert_other _ id (fresh (dom (orders (db w)))));
        [reflexivity | exact Hne | apply with_order_id_all].
Qed.

(** X14.  [createOrder] never touches an order that is already stored:
    whatever the outcome, the order is still there unchanged, with the
    same line items. *)
Theorem createOrder_keeps_other_orders (e : env) (userId : string) (body : create_body)
  (w : world) (id : nat) (o : order) :
  orders (db w) !! id = Some o ->
  orders (db (snd (createOrder e userId body w))) !! id = Some o
  /\ items_of (db (snd (createOrder e userId body w))) id = items_of (db w) id.
Proof. apply createOrder_frame. Qed.

Lemma createOrder_keeps_other_orders_witness :
  exists o,
    orders (db (snd (createOrder (Scenario.shop Scenario.items_fail) "u-2" Scenario.basket
                       Scenario.world1))) !! 0%nat = Some o
    /\ items_of (db (snd (createOrder (Scenario.shop Scenario.items_fail) "u-2"
                            Scenario.basket Scenario.world1))) 0
       = items_of (db Scenario.world1) 0.
Proof.
  eexists.
  apply (createOrder_keeps_other_orders (Scenario.shop Scenario.items_fail) "u-2"
           Scenario.basket Scenario.world1 0).
  vm_compute. reflexivity.
Defined.

Lemma world1_referential : referential (db Scenario.world1).
Proof.
  intros it Hit. vm_compute in Hit.
  destruct Hit as [<- | [<- | []]]; eexists; vm_compute; reflexivity.
Qed.

(** X15.  A run of [createOrder] that fails, in a store that respects
    the foreign key and with a rollback delete that goes through, leaves
    the store exactly as it found it. *)
Theorem createOrder_failure_restores (e : env) (userId : string) (body : create_body)
  (w : world) :
  referential (db w) ->
  deleteError (fault e) = false ->
  success (fst (createOrder e userId body w)) = false ->
  db (snd (createOrder e userId body w)) = db w.
Proof.
  intros Href HdE. unfold createOrder. cbn [logged db].
  destruct (if outletError (fault e) then None else _) as [outlet |]; [| reflexivity].
  pose proof (price_items_db e (items body) (Number_of_Z 0) [] (logged RpcNearestOutlet w)) as Hdb.
  destruct (price_items e (items body) (Number_of_Z 0) [] _)
    as [[[total its] | missing] w1];
    simpl in Hdb; [| intros _; exact Hdb].
  destruct (generateRiderInfo (rng w1)) as [rider g].
  destruct (orderError (fault e)); [intros _; exact Hdb |].
  cbn [logged db]. rewrite Hdb.
  match goal with
  | |- context [insert_order ?row (db w)] =>
      pose proof (delete_order_undoes_insert row (db w) Href) as Hundo;
      destruct (insert_order row (db w)) as [id s]
  end.
  cbn [fst snd] in Hundo.
  destruct (itemsError (fault e)); [| discriminate].
  rewrite HdE. intros _. exact Hundo.
Qed.

Lemma createOrder_failure_restores_witness :
  db (snd (createOrder (Scenario.shop Scenario.items_fail) "u-2" Scenario.basket
             Scenario.world1))
  = db Scenario.world1.
Proof.
  apply createOrder_failure_restores.
  - exact world1_referential.
  - reflexivity.
  - reflexivity.
Defined.

(** X16.  What a successful [createOrder] answers is what it stored: the
    header in the response is the row now stored under the returned id,
    it belongs to the caller and is [pending]; the line items are joined
    unless the final re-fetch errors, in which case the bare header is
    returned and the order is stored all the same. *)
Theorem created_order_is_stored (e : env) (userId : string) (body : create_body)
  (w : world) :
  success (fst (createOrder e userId body w)) = true ->
  exists view,
    data (fst (createOrder e userId body w)) = Some view
    /\ status (fst (createOrder e userId body w)) = 201%nat
    /\ orders (db w) !! view_id view = None
    /\ orders (db (snd (createOrder e userId body w))) !! view_id view
       = Some (view_order view)
    /\ user_id (view_order view) = userId
    /\ order_state (view_order view) = pending
    /\ (joined view = None <-> enrichError (fault e) = true)
    /\ (forall rows, joined view = Some rows ->
          map fst rows
          = items_of (db (snd (createOrder e userId body w))) (view_id view)).
Proof.
  intros Hok.
  destruct (createOrder_success_inv e userId body w Hok)
    as (outlet & new & rider & _ & _ & _ & _ & _ & Hdb & Hresp).
  rewrite Hresp. eexists. split; [reflexivity |]. cbn [view_id view_order joined status ok].
  split; [reflexivity |]. split; [apply fresh_order_id |]. split.
  { rewrite Hdb. cbn [insert_items orders]. apply lookup_insert_eq. }
  split; [reflexivity |]. split; [reflexivity |]. split.
  - destruct (enrichError (fault e)); split; intros H; congruence.
  - intros rows. destruct (enrichError (fault e)); [discriminate |].
    intros [= <-]. rewrite map_map. simpl. apply map_id.
Qed.

Lemma created_order_is_stored_witness :
  exists view,
    data (fst (createOrder (Scenario.shop Cases.enrich_fails) "u-1" Scenario.basket
                 Scenario.world0)) = Some view
    /\ joined view = None
    /\ orders (db (snd (createOrder (Scenario.shop Cases.enrich_fails) "u-1"
                          Scenario.basket Scenario.world0))) !! view_id view
       = Some (view_order view).
Proof.
  destruct (created_order_is_stored (Scenario.shop Cases.enrich_fails) "u-1"
              Scenario.basket Scenario.world0 eq_refl)
    as (view & Hdata & _ & _ & Hstored & _ & _ & Hjoin & _).
  exists view. split; [exact Hdata |]. split; [| exact Hstored].
  apply Hjoin. reflexivity.
Defined.

(** The foreign key survives the first order of the sample data. *)
Lemma createOrder_referential_witness : referential (db Scenario.world1).
Proof.
  apply (createOrder_referential (Scenario.shop Scenario.no_faults) "u-1"
           Scenario.basket Scenario.world0).
  intros it [].
Defined.

(** *** Orders of other users, and orders that do not exist *)

Lemma select_order_foreign (s : store) (id : nat) (userId : string) :
  (forall o, orders s !! id = Some o -> user_id o <> userId) ->
  select_order s id userId = None.
Proof.
  intros Hforeign. unfold select_order.
  destruct (orders s !! id) as [o |] eqn:Ho; [| reflexivity].
  destruct (String.eqb (user_id o) userId) eqn:Heq; [| reflexivity].
  apply String.eqb_eq in Heq. now destruct (Hforeign o eq_refl).
Qed.

(** X17.  An order that does not exist, or that belongs to someone else,
    cannot be read, tracked, cancelled or reordered: each of the four
    handlers answers 404, and the store is left as it was. *)
Theorem foreign_order_untouched (e : env) (userId : string) (id : nat)
  (body : reorder_body) (w : world) :
  (forall o, orders (db w) !! id = Some o -> user_id o <> userId) ->
  fst (getOrderById e userId id w) = failure 404 "Order not found"
  /\ fst (getOrderStatus e userId id w) = failure 404 "Order not found"
  /\ fst (cancelOrder e userId id w) = failure 404 "Order not found"
  /\ db (snd (cancelOrder e userId id w)) = db w
  /\ fst (reorder e userId id body w) = failure 404 "Original order not found"
  /\ db (snd (reorder e userId id body w)) = db w.
Proof.
  intros Hforeign. apply select_order_foreign in Hforeign.
  unfold getOrderById, getOrderStatus, cancelOrder, reorder. cbn [logged db].
  rewrite Hforeign. destruct (fetchError (fault e)); repeat split.
Qed.

Lemma foreign_order_untouched_witness :
  fst (cancelOrder (Scenario.shop Scenario.no_faults) "u-2" 0 Scenario.world1)
  = failure 404 "Order not found"
  /\ db (snd (cancelOrder (Scenario.shop Scenario.no_faults) "u-2" 0 Scenario.world1))
     = db Scenario.world1.
Proof.
  destruct (foreign_order_untouched (Scenario.shop Scenario.no_faults) "u-2" 0
              Cases.plain_reorder Scenario.world1)
    as (_ & _ & Hresp & Hdb & _).
  - intros o Ho. vm_compute in Ho. injection Ho as <-. discriminate.
  - split; [exact Hresp | exact Hdb].
Defined.

(** *** Cancelling *)

Lemma cancelOrder_success_inv (e : env) (userId : string) (id : nat) (w : world) :
  success (fst (cancelOrder e userId id w)) = true ->
  exists o,
    fetchError (fault e) = false
    /\ orders (db w) !! id = Some o
    /\ user_id o = userId
    /\ cancellable (order_state o) = true
    /\ db (snd (cancelOrder e userId id w)) = update_cancelled (now e) id (db w).
Proof.
  unfold cancelOrder. cbn [logged db].
  destruct (fetchError (fault e)); [discriminate |].
  unfold select_order.
  destruct (orders (db w) !! id) as [o |] eqn:Ho; [| discriminate].
  destruct (String.eqb (user_id o) userId) eqn:Heq; [| discriminate].
  apply String.eqb_eq in Heq.
  destruct (cancellable (order_state o)) eqn:Hc; [| discriminate]. simpl.
  destruct (updateError (fault e)); [discriminate |].
  intros _. exists o. repeat split; assumption.
Qed.

(** X18.  A successful cancellation changes one thing: the cancelled
    order's status, with its update time.  Its amounts, owner, outlet,
    address, rider and notes stay as they were; every other order and
    every line item is untouched. *)
Theorem cancel_changes_one_order (e : env) (userId : string) (id : nat) (w : world) :
  success (fst (cancelOrder e userId id w)) = true ->
  exists o o',
    orders (db w) !! id = Some o
    /\ orders (db (snd (cancelOrder e userId id w))) !! id = Some o'
    /\ order_state o' = cancelled
    /\ updated_at o' = Some (now e)
    /\ total_amount o' = total_amount o
    /\ delivery_fee o' = delivery_fee o
    /\ (user_id o', order_outlet_id o', payment_method o', delivery_address o')
       = (user_id o, order_outlet_id o, payment_method o, delivery_address o)
    /\ (delivery_lat o', delivery_lng o', estimated_delivery_time o', rider_info o', notes o')
       = (delivery_lat o, delivery_lng o, estimated_delivery_time o, rider_info o, notes o)
    /\ (forall id', id' <> id ->
          orders (db (snd (cancelOrder e userId id w))) !! id' = orders (db w) !! id')
    /\ order_items (db (snd (cancelOrder e userId id w))) = order_items (db w).
Proof.
  intros Hok.
  destruct (cancelOrder_success_inv e userId id w Hok) as (o & _ & Ho & _ & _ & Hdb).
  exists o, (set_cancelled (now e) o). rewrite Hdb. unfold update_cancelled.
  cbn [orders order_items]. split; [exact Ho |]. split.
  { now rewrite lookup_alter_eq, Ho. }
  repeat split. intros id' Hne. now rewrite lookup_alter_ne by congruence.
Qed.

Lemma cancel_changes_one_order_witness :
  order_items (db (snd (cancelOrder (Scenario.shop Scenario.no_faults) "u-1" 0
                          Scenario.world1)))
  = order_items (db Scenario.world1).
Proof.
  destruct (cancel_changes_one_order (Scenario.shop Scenario.no_faults) "u-1" 0
              Scenario.world1 eq_refl)
    as (o & o' & _ & _ & _ & _ & _ & _ & _ & _ & _ & Hitems).
  exact Hitems.
Defined.

(** X19.  Cancellation cannot be repeated: once an order is cancelled, a
    second cancellation by its owner is refused with 400 and changes
    nothing. *)
Theorem cancel_twice_refused (e : env) (userId : string) (id : nat) (w : world) :
  success (fst (cancelOrder e userId id w)) = true ->
  fst (cancelOrder e userId id (snd (cancelOrder e userId id w)))
  = failure 400 "Order cannot be cancelled at this stage"
  /\ db (snd (cancelOrder e userId id (snd (cancelOrder e userId id w))))
     = db (snd (cancelOrder e userId id w)).
Proof.
  intros Hok.
  destruct (cancelOrder_success_inv e userId id w Hok) as (o & HfE & Ho & Hu & _ & Hdb).
  set (w1 := snd (cancelOrder e userId id w)) in *.
  unfold cancelOrder. cbn [logged db]. rewrite HfE.
  assert (select_order (db w1) id userId = Some (set_cancelled (now e) o)) as ->.
  { unfold select_order. rewrite Hdb. unfold update_cancelled. cbn [orders].
    rewrite lookup_alter_eq, Ho. simpl. rewrite Hu. now rewrite String.eqb_refl. }
  simpl. split; reflexivity.
Qed.

Lemma cancel_twice_refused_witness :
  fst (cancelOrder (Scenario.shop Scenario.no_faults) "u-1" 0 Cases.world_cancelled)
  = failure 400 "Order cannot be cancelled at this stage".
Proof.
  exact (proj1 (cancel_twice_refused (Scenario.shop Scenario.no_faults) "u-1" 0
                  Scenario.world1 eq_refl)).
Defined.

(** *** Tracking *)

Lemma Number_toString_zero : Number_toString 0 = "0".
Proof. reflexivity. Qed.

(** X20.  The time remaining is shown for every status but [delivered]
    and [cancelled]; it is never negative, and once the estimated time
    has passed it reads [0 minutes]. *)
Theorem time_remaining_shown (s : order_status) (estimatedTime now : Date) :
  (timeRemaining s (Some estimatedTime) now = None <-> s = delivered \/ s = cancelled)
  /\ 0 <= diffMinutes estimatedTime now
  /\ (estimatedTime <= now -> s <> delivered -> s <> cancelled ->
      timeRemaining s (Some estimatedTime) now = Some "0 minutes").
Proof.
  split; [| split].
  - destruct s; simpl; split; intros H; try discriminate; auto;
      destruct H; discriminate.
  - unfold diffMinutes. lia.
  - intros Hpast Hd Hc.
    assert (diffMinutes estimatedTime now = 0) as Hzero.
    { unfold diffMinutes. change (1000 * 60) with 60000.
      assert ((estimatedTime - now) / 60000 <= 0); [| lia].
      apply Z.div_le_upper_bound; lia. }
    destruct s; simpl; rewrite ?Hzero; try reflexivity; contradiction.
Qed.

Lemma time_remaining_shown_witness :
  timeRemaining preparing (Some 1700000000000) 1700000600000 = Some "0 minutes".
Proof.
  apply (proj2 (proj2 (time_remaining_shown preparing 1700000000000 1700000600000)));
    [lia | discriminate | discriminate].
Defined.



(** X22.  After a successful cancellation the owner's tracking shows the
    order as [cancelled], at 0 percent, with no time remaining. *)
Theorem tracking_after_cancel (e : env) (userId : string) (id : nat) (w : world) :
  success (fst (cancelOrder e userId id w)) = true ->
  exists t,
    fst (getOrderStatus e userId id (snd (cancelOrder e userId id w))) = json t
    /\ tracked_status t = cancelled
    /\ progress_percentage t = 0
    /\ status_message t = "Order has been cancelled"
    /\ time_remaining t = None.
Proof.
  intros Hok.
  destruct (cancelOrder_success_inv e userId id w Hok) as (o & HfE & Ho & Hu & _ & Hdb).
  unfold getOrderStatus. cbn [logged db]. rewrite HfE.
  unfold select_order. rewrite Hdb. unfold update_cancelled. cbn [orders].
  rewrite lookup_alter_eq, Ho. simpl. rewrite Hu, String.eqb_refl.
  eexists. split; [reflexivity |]. repeat split.
Qed.

Lemma tracking_after_cancel_witness :
  exists t,
    fst (getOrderStatus (Scenario.shop Scenario.no_faults) "u-1" 0 Cases.world_cancelled)
    = json t
    /\ time_remaining t = None.
Proof.
  destruct (tracking_after_cancel (Scenario.shop Scenario.no_faults) "u-1" 0
              Scenario.world1 eq_refl)
    as (t & Hresp & _ & _ & _ & Htime).
  exists t. split; [exact Hresp | exact Htime].
Defined.

(** *** Reordering *)

Lemma Forall2_map_left {A B C} (P : B -> C -> Prop) (f : A -> B) (l : list A)
  (l' : list C) :
  Forall2 P (map f l) l' -> Forall2 (fun a c => P (f a) c) l l'.
Proof.
  revert l'. induction l as [| a l IH]; intros l' H; inversion H; subst; constructor; auto.
Qed.

(** X23.  A successful reorder, in a store that respects the foreign
    key, creates a new order under a new id and leaves the original and
    its line items as they were.  The new line items repeat the products
    of the original, in order; each quantity is what the store keeps, at
    three decimals, of the original quantity read back as a number; and
    each line is priced at what the catalog asks for now: its unit price
    is what the store keeps of the current price, and its subtotal what
    the store keeps of that price times the quantity, multiplied in
    doubles. *)
Theorem reorder_creates_fresh_order (e : env) (userId : string) (id : nat)
  (body : reorder_body) (w : world) :
  referential (db w) ->
  success (fst (reorder e userId id body w)) = true ->
  exists o view,
    orders (db w) !! id = Some o
    /\ data (fst (reorder e userId id body w)) = Some view
    /\ view_id view <> id
    /\ orders (db (snd (reorder e userId id body w))) !! id = Some o
    /\ items_of (db (snd (reorder e userId id body w))) id = items_of (db w) id
    /\ orders (db (snd (reorder e userId id body w))) !! view_id view
       = Some (view_order view)
    /\ Forall2 (fun old new =>
                  item_product_id new = item_product_id old
                  /\ quantity_litres new
                     = to_decimal e 3 (to_number (quantity_litres old))
                  /\ exists p,
                       select_product e (item_product_id old) = Some p
                       /\ unit_price new = to_decimal e 2 (to_number (price_per_litre p))
                       /\ subtotal new
                          = to_decimal e 2 (line_amount p (quantity_litres old)))
         (items_of (db w) id)
         (items_of (db (snd (reorder e userId id body w))) (view_id view)).
Proof.
  intros Href. unfold reorder.
  change (db (logged (SelectOrder id) w)) with (db w).
  destruct (fetchError (fault e)); [discriminate |].
  destruct (select_order (db w) id userId) as [o |] eqn:Hsel; [| discriminate].
  assert (orders (db w) !! id = Some o) as Ho.
  { unfold select_order in Hsel. destruct (orders (db w) !! id) as [o0 |]; [| discriminate].
    destruct (String.eqb (user_id o0) userId); congruence. }
  set (w0 := logged (SelectOrder id) w).
  set (nd := newOrderData o (items_of (db w) id) body).
  intros Hok.
  destruct (createOrder_success_inv e userId nd w0 Hok)
    as (outlet & new & rider & _ & _ & _ & _ & Hpriced & Hdb & Hresp).
  destruct (createOrder_frame e userId nd w0 id o Ho) as [Hkept Hitems].
  exists o. eexists. split; [exact Ho |]. split; [rewrite Hresp; reflexivity |].
  cbn [view_id view_order]. change (db w0) with (db w) in *.
  split.
  { intros Heq. rewrite <- Heq, fresh_order_id in Ho. discriminate. }
  split; [exact Hkept |]. split; [exact Hitems |]. split.
  { rewrite Hdb. cbn [insert_items orders]. apply lookup_insert_eq. }
  rewrite Hdb, items_of_inserted;
    [| intros it Hit; now apply referential_fresh | apply with_order_id_all].
  specialize (Hpriced (fresh (dom (orders (db w))))).
  unfold nd, newOrderData in Hpriced. cbn [items] in Hpriced.
  apply Forall2_map_left in Hpriced.
  eapply Forall2_impl; [exact Hpriced |].
  intros old new0 (p & Hp & Hid & Hq & Hu & Hs). cbn in Hp, Hid, Hq, Hs.
  split; [exact Hid |]. split; [exact Hq |]. exists p. repeat split; assumption.
Qed.

Lemma reorder_creates_fresh_order_witness :
  exists o view,
    orders (db Scenario.world1) !! 0%nat = Some o
    /\ data (fst (reorder Cases.shop_dearer_mango "u-1" 0 Cases.plain_reorder
                    Scenario.world1)) = Some view
    /\ view_id view <> 0%nat.
Proof.
  destruct (reorder_creates_fresh_order Cases.shop_dearer_mango "u-1" 0
              Cases.plain_reorder Scenario.world1 world1_referential eq_refl)
    as (o & view & Ho & Hdata & Hne & _).
  exists o, view. repeat split; assumption.
Defined.

(** X24.  A reorder checks the catalog again: if a product of the
    original order can no longer be selected as an available product,
    the reorder is refused with 400, no order is created and the store
    is as it was. *)
Theorem reorder_checks_availability (e : env) (userId : string) (id : nat)
  (body : reorder_body) (w : world) (o : order) :
  fetchError (fault e) = false ->
  select_order (db w) id userId = Some o ->
  is_Some (if outletError (fault e) then None
           else get_nearest_outlet e
                  (or_number (new_delivery_lat body) (delivery_lat o))
                  (or_number (new_delivery_lng body) (delivery_lng o))) ->
  Exists (fun it => select_product e (item_product_id it) = None) (items_of (db w) id) ->
  status (fst (reorder e userId id body w)) = 400%nat
  /\ success (fst (reorder e userId id body w)) = false
  /\ db (snd (reorder e userId id body w)) = db w.
Proof.
  intros HfE Hsel [outlet Houtlet] Hmissing.
  unfold reorder. cbn [logged db]. rewrite HfE, Hsel.
  unfold createOrder. cbn [logged db newOrderData body_delivery_lat body_delivery_lng items].
  rewrite Houtlet.
  match goal with
  | |- context [price_items e ?its (Number_of_Z 0) [] ?w0] =>
      pose proof (price_items_db e its (Number_of_Z 0) [] w0) as Hdb;
      destruct (price_items e its (Number_of_Z 0) [] w0)
        as [[[total lines] | missing] w1] eqn:Hprice
  end.
  - exfalso. apply price_items_spec in Hprice as (new & _ & _ & _ & _ & _ & Hpriced).
    pose proof (priced_selectable e _ _ (priced_stored e 0 _ _ Hpriced)) as Hall.
    rewrite List.Forall_forall in Hall.
    apply List.Exists_exists in Hmissing as (it & Hit & Hnone).
    destruct (Hall {| req_product_id := item_product_id it;
                      req_quantity_litres := quantity_litres it |}) as [p Hp].
    + apply in_map_iff. exists it. split; [reflexivity | exact Hit].
    + cbn [req_product_id] in Hp. congruence.
  - cbn [fst snd status success failure]. repeat split. exact Hdb.
Qed.

Lemma reorder_checks_availability_witness :
  status (fst (reorder Cases.shop_without_green "u-1" 0 Cases.plain_reorder
                 Scenario.world1)) = 400%nat
  /\ db (snd (reorder Cases.shop_without_green "u-1" 0 Cases.plain_reorder
                 Scenario.world1)) = db Scenario.world1.
Proof.
  edestruct (reorder_checks_availability Cases.shop_without_green "u-1" 0
               Cases.plain_reorder Scenario.world1)
    as (Hstatus & _ & Hdb).
  - reflexivity.
  - vm_compute. reflexivity.
  - eexists. reflexivity.
  - apply Exists_cons_tl, Exists_cons_hd. vm_compute. reflexivity.
  - split; [exact Hstatus | exact Hdb].
Defined.

End PipelineFacts.

(** ** The delivery controller *)

Module DeliveryFacts.
Import JS Http Helpers Schema Orders Spec HelpersMore Tracking Delivery PipelineFacts.

(** X26.  For a valid coordinate with an outlet in reach of the lookup,
    the two delivery handlers agree: delivery is available exactly when
    the outlet is at most 20 km away, and the availability message says
    so.  A fee is quoted either way. *)
Theorem availability_agrees (e : env) (lat lng : Q) (outlet : nearest_outlet) :
  isValidCoordinate lat lng = true ->
  outletError (fault e) = false ->
  get_nearest_outlet e lat lng = Some outlet ->
  exists q a,
    getDeliveryFee e lat lng = json q
    /\ checkDeliveryAvailability e lat lng = json a
    /\ delivery_available a = Some (quote_available q)
    /\ (quote_available q = true <-> (distance_km outlet <= 20)%Q)
    /\ quoted_fee q = calculateDeliveryFee (distance_km outlet)
    /\ availability_message a
       = (if quote_available q then "Delivery available in your area"
          else "Location is outside our delivery area").
Proof.
  intros Hvalid HoE Houtlet. unfold getDeliveryFee, checkDeliveryAvailability.
  rewrite Hvalid, HoE, Houtlet. simpl.
  eexists. eexists. split; [reflexivity |]. split; [reflexivity |].
  cbn [delivery_available quote_available quoted_fee availability_message].
  split; [reflexivity |]. split; [apply Qle_bool_iff |]. split; [reflexivity |].
  change (inject_Z maxDeliveryDistance) with 20%Q.
  destruct (Qle_bool (distance_km outlet) 20); reflexivity.
Qed.

Lemma availability_agrees_witness :
  exists q a,
    getDeliveryFee (Scenario.shop Scenario.no_faults) (3476 # 10000) (325825 # 10000)
    = json q
    /\ checkDeliveryAvailability (Scenario.shop Scenario.no_faults) (3476 # 10000)
         (325825 # 10000) = json a
    /\ delivery_available a = Some (quote_available q).
Proof.
  destruct (availability_agrees (Scenario.shop Scenario.no_faults) (3476 # 10000)
              (325825 # 10000) Scenario.kampala_central eq_refl eq_refl eq_refl)
    as (q & a & Hq & Ha & Hsame & _).
  exists q, a. repeat split; assumption.
Defined.

(** X27.  Inside the delivery radius the quote is bounded: for an outlet
    between 0 and 20 km away the fee is between 2000 and 42000 and the
    estimated time between 30 and 230 minutes. *)
Theorem quote_bounds_in_radius (e : env) (lat lng : Q) (q : fee_quote)
  (outlet : nearest_outlet) :
  getDeliveryFee e lat lng = json q ->
  get_nearest_outlet e lat lng = Some outlet ->
  (0 <= distance_km outlet)%Q ->
  quote_available q = true ->
  2000 <= quoted_fee q <= 42000
  /\ 30 <= estimated_delivery_minutes q <= 230.
Proof.
  unfold getDeliveryFee.
  destruct (negb (isValidCoordinate lat lng)); [discriminate |].
  destruct (outletError (fault e)); [discriminate |].
  intros Hq Houtlet. rewrite Houtlet in Hq. injection Hq as <-.
  cbn [quote_available quoted_fee estimated_delivery_minutes].
  intros Hlo Hhi. apply Qle_bool_iff in Hhi.
  unfold calculateDeliveryFee, baseFee, perKmFee.
  pose proof (Qceiling_resp_le _ _ Hlo) as H0. change (Qceiling 0) with 0 in H0.
  pose proof (Qceiling_resp_le _ _ Hhi) as H20. change (Qceiling 20) with 20 in H20.
  split; [lia |].
  assert (30 <= 30 + 10 * distance_km outlet)%Q as H30.
  { rewrite <- (Qplus_0_r 30) at 1. apply Qplus_le_r.
    apply Qmult_le_0_compat; [discriminate | exact Hlo]. }
  assert (30 + 10 * distance_km outlet <= 230)%Q as H230.
  { change 230%Q with (30 + 10 * 20)%Q. apply Qplus_le_r.
    apply Qmult_le_l; [reflexivity | exact Hhi]. }
  apply Qceiling_resp_le in H30, H230.
  change (Qceiling 30) with 30 in H30. change (Qceiling 230) with 230 in H230. lia.
Qed.

Lemma quote_bounds_in_radius_witness :
  2000 <= calculateDeliveryFee 3 <= 42000.
Proof.
  refine (proj1 (quote_bounds_in_radius (Scenario.shop Scenario.no_faults)
                   (3476 # 10000) (325825 # 10000) _ Scenario.kampala_central
                   eq_refl eq_refl _ eq_refl)).
  discriminate.
Defined.

(** X28.  When the lookup answers without an outlet, the three handlers
    differ: the fee quote is a 404, the availability check succeeds with
    [delivery_available] null and its own message, and [createOrder] is a
    400 that writes nothing. *)
Theorem no_outlet_answers (e : env) (userId : string) (body : create_body) (w : world) :
  isValidCoordinate (body_delivery_lat body) (body_delivery_lng body) = true ->
  outletError (fault e) = false ->
  get_nearest_outlet e (body_delivery_lat body) (body_delivery_lng body) = None ->
  getDeliveryFee e (body_delivery_lat body) (body_delivery_lng body)
  = failure 404 "No outlets available in your area"
  /\ (exists a,
        checkDeliveryAvailability e (body_delivery_lat body) (body_delivery_lng body)
        = json a
        /\ delivery_available a = None
        /\ available_outlet a = None
        /\ availability_message a = "No outlets found in your area")
  /\ fst (createOrder e userId body w) = failure 400 "No outlets available in your area"
  /\ db (snd (createOrder e userId body w)) = db w.
Proof.
  intros Hvalid HoE Hnone.
  unfold getDeliveryFee, checkDeliveryAvailability, createOrder.
  rewrite Hvalid, HoE, Hnone. simpl. split; [reflexivity |].
  split; [eexists; repeat split |]. split; reflexivity.
Qed.

Lemma no_outlet_answers_witness :
  getDeliveryFee Cases.shop_no_outlet (3476 # 10000) (325825 # 10000)
  = failure 404 "No outlets available in your area"
  /\ fst (createOrder Cases.shop_no_outlet "u-1" Scenario.basket Scenario.world0)
     = failure 400 "No outlets available in your area".
Proof.
  destruct (no_outlet_answers Cases.shop_no_outlet "u-1" Scenario.basket Scenario.world0
              eq_refl eq_refl eq_refl) as (Hquote & _ & Horder & _).
  split; [exact Hquote | exact Horder].
Defined.

(** X29.  The fee [getDeliveryFee] quotes for a coordinate is the fee a
    successful [createOrder] to that coordinate stores, and both name
    the same outlet. *)
Theorem quote_matches_charge (e : env) (userId : string) (body : create_body) (w : world)
  (view : order_view) :
  data (fst (createOrder e userId body w)) = Some view ->
  isValidCoordinate (body_delivery_lat body) (body_delivery_lng body) = true ->
  exists q,
    getDeliveryFee e (body_delivery_lat body) (body_delivery_lng body) = json q
    /\ quoted_fee q = delivery_fee (view_order view)
    /\ summary_id (quoted_outlet q) = order_outlet_id (view_order view).
Proof.
  intros Hdata Hvalid.
  assert (success (fst (createOrder e userId body w)) = true) as Hok.
  { destruct (fst (createOrder e userId body w)) as [st [] msg d] eqn:Hr; [reflexivity |].
    exfalso. revert Hr Hdata. unfold createOrder.
    destruct (if outletError (fault e) then None else _); [| intros [= <- <- <-]; discriminate].
    destruct (price_items e (items body) (Number_of_Z 0) [] _)
    as [[[total its] | missing] w1];
      [| intros [= <- <- <-]; discriminate].
    destruct (generateRiderInfo (rng w1)) as [rider g].
    destruct (orderError (fault e)); [intros [= <- <- <-]; discriminate |].
    unfold insert_order. cbn [logged with_db db].
    destruct (itemsError (fault e)); intros [= <- <- <-]; discriminate. }
  destruct (createOrder_success_inv e userId body w Hok)
    as (outlet & new & rider & HoE & Houtlet & _ & _ & _ & _ & Hresp).
  rewrite Hresp in Hdata. injection Hdata as <-.
  unfold getDeliveryFee. rewrite Hvalid, HoE, Houtlet. simpl.
  eexists. split; [reflexivity |]. split; reflexivity.
Qed.

Lemma quote_matches_charge_witness :
  exists q,
    getDeliveryFee (Scenario.shop Scenario.no_faults) (3476 # 10000) (325825 # 10000)
    = json q
    /\ quoted_fee q = 8000.
Proof.
  edestruct (quote_matches_charge (Scenario.shop Scenario.no_faults) "u-1"
               Scenario.basket Scenario.world0)
    as (q & Hq & Hfee & _).
  - reflexivity.
  - reflexivity.
  - exists q. split; [exact Hq | exact Hfee].
Defined.

End DeliveryFacts.

(** ** Pagination *)

Module PagingFacts.
Import JS Paging.

Lemma firstn_add {A} (a b : nat) (l : list A) :
  (firstn a l ++ firstn b (skipn a l))%list = firstn (a + b) l.
Proof.
  revert l. induction a as [| a IH]; intros l; simpl; [reflexivity |].
  destruct l as [| x l]; simpl.
  - now rewrite firstn_nil.
  - now rewrite IH.
Qed.

Lemma page_rows_window {A} (k : nat) (limit : Z) (rows : list A) :
  1 <= limit ->
  page_rows (Z.of_nat (S k)) limit rows
  = firstn (Z.to_nat limit) (skipn (k * Z.to_nat limit) rows).
Proof.
  intros Hl. unfold page_rows, range, range_to, range_from.
  replace (Z.of_nat (S k) - 1) with (Z.of_nat k) by lia.
  f_equal; [lia |]. f_equal. rewrite Z2Nat.inj_mul by lia. now rewrite Nat2Z.id.
Qed.

Lemma pages_prefix {A} (n : nat) (limit : Z) (rows : list A) :
  1 <= limit ->
  flat_map (fun k => page_rows (Z.of_nat k) limit rows) (seq 1 n)
  = firstn (n * Z.to_nat limit) rows.
Proof.
  intros Hl. induction n as [| n IH].
  - reflexivity.
  - rewrite seq_S, flat_map_app, IH. simpl. rewrite app_nil_r.
    rewrite page_rows_window by exact Hl.
    rewrite firstn_add. f_equal. lia.
Qed.

Lemma totalPages_bounds (count limit : Z) :
  0 <= count -> 1 <= limit ->
  count <= totalPages count limit * limit
  /\ (count = 0 -> totalPages count limit = 0)
  /\ (0 < count -> (totalPages count limit - 1) * limit < count).
Proof.
  intros Hc Hl. unfold totalPages.
  set (x := (inject_Z count / inject_Z limit)%Q).
  assert (0 < inject_Z limit)%Q as Hpos
    by (change 0%Q with (inject_Z 0); rewrite <- Zlt_Qlt; lia).
  assert (x * inject_Z limit == inject_Z count)%Q as Hx.
  { unfold x. rewrite Qmult_comm. apply Qmult_div_r.
    intros H. rewrite H in Hpos. discriminate. }
  split; [| split].
  - rewrite Zle_Qle, inject_Z_mult, <- Hx.
    apply Qmult_le_compat_r; [apply Qle_ceiling | now apply Qlt_le_weak].
  - intros ->. unfold x.
    change (inject_Z 0 / inject_Z limit)%Q with (0 / inject_Z limit)%Q.
    assert (0 / inject_Z limit == 0)%Q as -> by (unfold Qdiv; apply Qmult_0_l).
    reflexivity.
  - intros _. rewrite Zlt_Qlt, inject_Z_mult, <- Hx.
    apply Qmult_lt_r; [exact Hpos |]. apply Qceiling_lt.
Qed.

(** X30.  Paging loses nothing and repeats nothing: for a page size of
    at least one, the pages 1 to [totalPages] of a result set, one after
    the other, are the result set; each of them holds between one and
    [limit] rows, and each page starts at the offset right after the end
    of the page before. *)
Theorem pages_partition {A} (limit : Z) (rows : list A) :
  1 <= limit ->
  flat_map (fun k => page_rows (Z.of_nat k) limit rows)
    (seq 1 (Z.to_nat (totalPages (Z.of_nat (length rows)) limit)))
  = rows
  /\ (forall page, 1 <= page <= totalPages (Z.of_nat (length rows)) limit ->
        1 <= Z.of_nat (length (page_rows page limit rows)) <= limit)
  /\ (forall page, 1 <= page ->
        range_from (page + 1) limit = range_to page limit + 1).
Proof.
  intros Hl.
  destruct (totalPages_bounds (Z.of_nat (length rows)) limit) as (Hup & Hzero & Hlow);
    [lia | exact Hl |].
  set (T := totalPages (Z.of_nat (length rows)) limit) in *.
  split; [| split].
  - rewrite pages_prefix by exact Hl. apply firstn_all2.
    destruct (Z.eq_dec (Z.of_nat (length rows)) 0) as [H0 | Hne]; [lia |].
    assert (0 <= T) by nia. nia.
  - intros page [H1 HT].
    replace page with (Z.of_nat (S (Z.to_nat (page - 1)))) by lia.
    rewrite page_rows_window by exact Hl.
    rewrite length_firstn, length_skipn.
    assert (0 < Z.of_nat (length rows)) as Hpos.
    { destruct (Z.eq_dec (Z.of_nat (length rows)) 0) as [H0 | Hne]; [| lia].
      specialize (Hzero H0). lia. }
    specialize (Hlow Hpos).
    assert ((page - 1) * limit < Z.of_nat (length rows)) by nia.
    assert (Z.of_nat (Z.to_nat (page - 1) * Z.to_nat limit) = (page - 1) * limit)
      by (rewrite Nat2Z.inj_mul, !Z2Nat.id by lia; reflexivity).
    lia.
  - intros page _. unfold range_to, range_from. lia.
Qed.

Lemma pages_partition_witness :
  flat_map (fun k => page_rows (Z.of_nat k) 2 [1; 2; 3; 4; 5]%nat)
    (seq 1 (Z.to_nat (totalPages (Z.of_nat (length [1; 2; 3; 4; 5]%nat)) 2)))
  = [1; 2; 3; 4; 5]%nat.
Proof. apply pages_partition. lia. Defined.

End PagingFacts.
